(** * Dork: world records, minimap builder, minimap renderer and validator

    A shallow embedding of [dork/types.py] and [dork/saveload.py].

    Python values that come out of the YAML loader are modelled by
    [value]; a Python [dict] is an insertion-ordered association list
    whose keys are strings (the world description format only uses string
    keys), so the names of rooms, items and characters are strings.  Code
    that can raise returns a [result]; the exception classes the two
    modules can raise are listed in [exn].

    The two libraries the code calls are modelled as far as the code
    depends on them: [networkx.Graph] by its adjacency structure, and the
    plotting calls of [pylab] and [networkx] by the arguments they are
    given ([Map.drawing]); opening and placing the window is left out.
    [Game] and [Map] refer to each other: here a [Game.t] holds its
    [Map.t], and the functions of [Map] take what they read of the game
    (its rooms, its player) as arguments. *)

From stdpp Require Import base decidable option list numbers strings.
From Stdlib Require Import ZArith Lia.

Local Open Scope string_scope.
Local Open Scope list_scope.
Local Open Scope Z_scope.

(** ** Python values and exceptions *)

#[local] Set Warnings "-register-all".

Inductive value : Type :=
| VNone
| VBool (b : bool)
| VInt (n : Z)
| VStr (s : string)
| VList (l : list value)
| VDict (d : list (string * value)).

Inductive value_error : Type :=
| EmptySequence   (* min() / max() of an empty iterable *)
| NotInList.      (* list.index(x) with x absent *)

Inductive exn : Type :=
| KeyError
| TypeError
| AttributeError
| ValueError (why : value_error).

Inductive result (A : Type) : Type :=
| Ok (a : A)
| Raise (e : exn).
Arguments Ok {A} a.
Arguments Raise {A} e.

Definition bind {A B : Type} (m : result A) (k : A → result B) : result B :=
  match m with
  | Ok a => k a
  | Raise e => Raise e
  end.

Notation "'let*' x ':=' m 'in' k" := (bind m (fun x => k))
  (at level 10, x name, m at level 100, k at level 200).
Notation "'let*' ' p ':=' m 'in' k" :=
  (bind m (fun x => match x with p => k end))
  (at level 10, p pattern, m at level 100, k at level 200).

(** A [for] loop whose body can raise: the state is threaded from left to
    right and the first exception leaves the loop. *)
Fixpoint for_each {A S : Type} (body : S → A → result S) (s : S) (l : list A)
  : result S :=
  match l with
  | [] => Ok s
  | a :: l' => let* s' := body s a in for_each body s' l'
  end.

(** A comprehension whose element expression can raise. *)
Fixpoint map_each {A B : Type} (f : A → result B) (l : list A)
  : result (list B) :=
  match l with
  | [] => Ok []
  | a :: l' => let* b := f a in let* bs := map_each f l' in Ok (b :: bs)
  end.

(** [min(l, key=key)] and [max(l, key=key)]: the first extremal element. *)
Definition py_min {A : Type} (key : A → Z) (l : list A) : result A :=
  match l with
  | [] => Raise (ValueError EmptySequence)
  | a :: l' =>
      Ok (fold_left (fun best c => if key c <? key best then c else best) l' a)
  end.

Definition py_max {A : Type} (key : A → Z) (l : list A) : result A :=
  match l with
  | [] => Raise (ValueError EmptySequence)
  | a :: l' =>
      Ok (fold_left (fun best c => if key c >? key best then c else best) l' a)
  end.

(** [l.index(x)], with [same] deciding [element == x] *)
Fixpoint py_index {A : Type} (same : A → bool) (l : list A) : result nat :=
  match l with
  | [] => Raise (ValueError NotInList)
  | a :: l' => if same a then Ok 0%nat else let* i := py_index same l' in Ok (S i)
  end.

(** ** Insertion-ordered dictionaries *)

Section dict.
Context {K V : Type} `{EqDecision K}.

Fixpoint dict_get (k : K) (d : list (K * V)) : option V :=
  match d with
  | [] => None
  | (k', v) :: d' => if decide (k = k') then Some v else dict_get k d'
  end.

Definition dict_mem (k : K) (d : list (K * V)) : bool :=
  match dict_get k d with Some _ => true | None => false end.

(** [d[k] = v]: an existing key keeps its place, a new key goes last. *)
Fixpoint dict_set (k : K) (v : V) (d : list (K * V)) : list (K * V) :=
  match d with
  | [] => [(k, v)]
  | (k', v') :: d' =>
      if decide (k = k') then (k', v) :: d' else (k', v') :: dict_set k v d'
  end.

(** [{k: v for k, v in items}] *)
Definition dict_of_items (items : list (K * V)) : list (K * V) :=
  fold_left (fun d kv => dict_set kv.1 kv.2 d) items [].

Definition keys (d : list (K * V)) : list K := d.*1.
Definition values (d : list (K * V)) : list V := d.*2.

(** [d[k]] on a dictionary *)
Definition dict_item (k : K) (d : list (K * V)) : result V :=
  match dict_get k d with
  | Some v => Ok v
  | None => Raise KeyError
  end.
End dict.

(** ** The object protocol used by the two modules *)

(** [bool(v)] *)
Definition truthy (v : value) : bool :=
  match v with
  | VNone => false
  | VBool b => b
  | VInt n => negb (n =? 0)
  | VStr s => negb (String.eqb s "")
  | VList l => match l with [] => false | _ => true end
  | VDict d => match d with [] => false | _ => true end
  end.

(** [v[k]] with a string key *)
Definition py_getitem (v : value) (k : string) : result value :=
  match v with
  | VDict d => dict_item k d
  | _ => Raise TypeError
  end.

(** [v.get(k)] *)
Definition py_get (v : value) (k : string) : result value :=
  match v with
  | VDict d => Ok (default VNone (dict_get k d))
  | _ => Raise AttributeError
  end.

(** [v.items()] *)
Definition py_items (v : value) : result (list (string * value)) :=
  match v with
  | VDict d => Ok d
  | _ => Raise AttributeError
  end.

(** ** Entity records *)

Module Player.
Record t := { position : value; inventory : value; stats : value }.

Definition __init__ (data : value) : result t :=
  let* position := py_get data "position" in
  let* inventory := py_get data "inventory" in
  let* stats := py_get data "stats" in
  Ok {| position := position; inventory := inventory; stats := stats |}.

Definition save (self : t) : value :=
  VDict [("position", position self);
         ("inventory", inventory self);
         ("stats", stats self)].
End Player.

Module Room.
Record t := { messages : value; door : value; fight : value; paths : value }.

Definition __init__ (data : value) : result t :=
  let* messages := py_get data "messages" in
  let* door := py_get data "door" in
  let* fight := py_get data "fight" in
  let* paths := py_get data "paths" in
  Ok {| messages := messages; door := door; fight := fight; paths := paths |}.

Definition save (self : t) : value :=
  VDict [("messages", messages self);
         ("door", door self);
         ("fight", fight self);
         ("paths", paths self)].
End Room.

Module Item.
Record t := { description : value; damage : value }.

Definition __init__ (data : value) : result t :=
  let* description := py_get data "description" in
  let* damage := py_get data "damage" in
  Ok {| description := description; damage := damage |}.

Definition save (self : t) : value :=
  VDict [("description", description self); ("damage", damage self)].
End Item.

Module Nonplayer.
Record t := { health : value; attack : value; points : value }.

Definition __init__ (data : value) : result t :=
  let* health := py_get data "health" in
  let* attack := py_get data "attack" in
  let* points := py_get data "points" in
  Ok {| health := health; attack := attack; points := points |}.

Definition save (self : t) : value :=
  VDict [("health", health self);
         ("attack", attack self);
         ("points", points self)].
End Nonplayer.

(** ** The part of [networkx.Graph] the minimap uses

    An undirected graph is its adjacency structure: every node has the
    insertion-ordered collection of its neighbours, an edge is stored at both
    of its ends, and adding an edge twice leaves the graph as it is.  Nodes
    are any hashable objects: integers while the map is built, and the
    [node_id] entries of [room_map] when it is drawn. *)

Module nx.
Section graph.
Context {N : Type} `{EqDecision N}.

Definition empty : list (N * list N) := [].

Definition add_node (n : N) (g : list (N * list N)) : list (N * list N) :=
  if dict_mem n g then g else dict_set n [] g.

Definition add_nodes_from (ns : list N) (g : list (N * list N))
  : list (N * list N) :=
  fold_left (fun g n => add_node n g) ns g.

Definition add_nbr (v : N) (nbrs : list N) : list N :=
  if bool_decide (v ∈ nbrs) then nbrs else nbrs ++ [v].

Definition link (u v : N) (g : list (N * list N)) : list (N * list N) :=
  dict_set u (add_nbr v (default [] (dict_get u g))) g.

Definition add_edge (u v : N) (g : list (N * list N)) : list (N * list N) :=
  link v u (link u v (add_node v (add_node u g))).

Definition add_edges_from (es : list (N * N)) (g : list (N * list N))
  : list (N * list N) :=
  fold_left (fun g e => add_edge e.1 e.2 g) es g.

Definition nodes (g : list (N * list N)) : list N := keys g.

(** [G.edges(n)] for a node [n] of the graph: the edges at [n], each
    reported as [(n, neighbour)] *)
Definition edges (n : N) (g : list (N * list N)) : result (list (N * N)) :=
  let* nbrs := dict_item n g in Ok ((fun v => (n, v)) <$> nbrs).
End graph.

Abbreviation Graph N := (list (N * list N)).
End nx.

(** ** The minimap *)

Module Map.
Record Point := { x : Z; y : Z }.

Record node_info := { node_id : option Z; edges : list Z }.

(** What [show] hands to the plotting calls. *)
Inductive color := blue | red.

Record drawing := {
  graph : nx.Graph (option Z);
  pos : list (option Z * (Z * Z));
  node_color : list color;
  labels : list (option Z * string)
}.

Record t := {
  origins : list (string * Point);
  room_map : list (string * node_info)
}.

(** The keys of the dictionary [nodes]: room names, which it maps to
    provisional node ids, and from line 143 on provisional node ids, which
    it maps to final node ids. *)
Inductive key := Name (name : string) | Id (node_id : Z).

#[export] Instance key_eq_dec : EqDecision key.
Proof. solve_decision. Defined.

(** The exit stored under a direction, used as a key of [origins] and of
    [nodes].  An unhashable exit raises at [not in origins]; any other
    exit that is not a string is not a key of [nodes], whose keys are room
    names, and raises at [nodes[...]]. *)
Definition exit_key (exit : value) : result string :=
  match exit with
  | VStr s => Ok s
  | VList _ | VDict _ => Raise TypeError
  | _ => Raise KeyError
  end.

Definition _adjust_minimap_origins
    (room : Room.t) (direction : string) (origins : list (string * Point))
    (name : string) (nodes : list (string * Z))
  : result (list (string * Point) * option (Z * Z)) :=
  let* exit := py_getitem (Room.paths room) direction in
  if truthy exit then
    let origins :=
      if negb (dict_mem name origins)
      then dict_set name {| x := 0; y := 0 |} origins else origins in
    let* dest := exit_key exit in
    let origins :=
      if negb (dict_mem dest origins)
      then dict_set dest {| x := 0; y := 0 |} origins else origins in
    let* origin := dict_item name origins in
    let x := x origin in
    let y := y origin in
    let y := if decide (direction = "up") then y - 1 else y in
    let y := if decide (direction = "down") then y + 1 else y in
    let x := if decide (direction = "left") then x - 1 else x in
    let x := if decide (direction = "right") then x + 1 else x in
    let origins := dict_set dest {| x := x; y := y |} origins in
    let* u := dict_item name nodes in
    let* v := dict_item dest nodes in
    Ok (origins, Some (u, v))
  else Ok (origins, None).

Definition _construct_minimap
    (minimap : nx.Graph Z) (nodes : list (string * Z))
    (rooms : list (string * Room.t))
  : result (list (string * Point) * nx.Graph Z) :=
  let* '(origins, edges) :=
    for_each (fun '(origins, edges) '(name, room) =>
      for_each (fun '(origins, edges) direction =>
        let* '(origins, edge) :=
          _adjust_minimap_origins room direction origins name nodes in
        Ok (origins, edges ++ [edge]))
      (origins, edges) ["up"; "down"; "left"; "right"])
    ([], []) rooms in
  let minimap := nx.add_edges_from (omap id edges) minimap in
  Ok (origins, minimap).

(** [show] reads the room structure of [self] and, through the game the
    map was built for, the player's current position. *)
Definition show (self : t) (player : Player.t) : result drawing :=
  let labels :=
    dict_of_items
      ((fun '(room, node_info) => (node_id node_info, room))
         <$> room_map self) in
  let* top := py_max y (values (origins self)) in
  let max_y := y top in
  let* positions :=
    map_each (fun '(room, origin) =>
      let* node_info := dict_item room (room_map self) in
      Ok (node_id node_info, (x origin, Z.abs (y origin - max_y))))
    (origins self) in
  let positions := dict_of_items positions in
  let color_map := (fun _ => blue) <$> keys labels in
  let* location := py_getitem (Player.position player) "location" in
  let* i :=
    py_index
      (fun label => match location with
                    | VStr s => bool_decide (label = s)
                    | _ => false
                    end)
      (values labels) in
  let color_map := <[i := red]> color_map in
  let minimap := nx.empty in
  let minimap :=
    nx.add_nodes_from
      ((fun '(room, node_info) => node_id node_info) <$> room_map self)
      minimap in
  let minimap :=
    nx.add_edges_from
      (mjoin
         ((fun '(room, node_info) =>
             (fun e_node => (node_id node_info, Some e_node))
               <$> edges node_info)
            <$> room_map self))
      minimap in
  Ok {| graph := minimap; pos := positions;
        node_color := color_map; labels := labels |}.

(** Lines 119 to 147 of [__init__]: everything before the window is set
    up and the map is drawn.  While the graph is built, the keys of
    [nodes] are the room names, which are strings, as the keys of the
    mappings of a world document are; the two loops over [origins] also
    store provisional ids in it as keys. *)
Definition layout (rooms : list (string * Room.t)) : result t :=
  let minimap := nx.empty in
  let nodes :=
    dict_of_items
      (zip (keys rooms) (seqZ 0 (Z.of_nat (length (keys rooms))))) in
  let minimap := nx.add_nodes_from (values nodes) minimap in
  let* '(origins, minimap) := _construct_minimap minimap nodes rooms in
  let* left := py_min x (values origins) in
  let dx := x left in
  let* top := py_min y (values origins) in
  let dy := y top in
  let origins :=
    if dx <? 0
    then (fun '(name, origin) =>
            (name, {| x := x origin + Z.abs dx; y := y origin |}))
           <$> origins
    else origins in
  let origins :=
    if dy <? 0
    then (fun '(name, origin) =>
            (name, {| x := x origin; y := y origin + Z.abs dy |}))
           <$> origins
    else origins in
  let* right := py_max x (values origins) in
  let width := x right + 1 in
  let room_map :=
    dict_of_items
      ((fun room => (room, {| node_id := None; edges := [] |}))
         <$> keys origins) in
  let nodes := (fun '(name, node_id) => (Name name, node_id)) <$> nodes in
  let* '(nodes, room_map) :=
    for_each (fun '(nodes, room_map) '(name, origin) =>
      let node_id := x origin + y origin * width in
      let* old := dict_item (Name name) nodes in
      let nodes := dict_set (Id old) node_id nodes in
      let* node_info := dict_item name room_map in
      let room_map :=
        dict_set name
          {| node_id := Some node_id; edges := edges node_info |}
          room_map in
      Ok (nodes, room_map))
    (nodes, room_map) origins in
  let* room_map :=
    for_each (fun room_map '(name, origin) =>
      let* old := dict_item (Name name) nodes in
      let* incident := nx.edges old minimap in
      for_each (fun room_map (edge : Z * Z) =>
        let* node_info := dict_item name room_map in
        let* new := dict_item (Id edge.2) nodes in
        Ok (dict_set name
              {| node_id := node_id node_info;
                 edges := edges node_info ++ [new] |}
              room_map))
      room_map incident)
    room_map origins in
  Ok {| origins := origins; room_map := room_map |}.

(** [Map(game)]: the game is read for its rooms and, when the map is
    drawn, for its player.  Setting up the window has no effect on the
    map. *)
Definition __init__ (rooms : list (string * Room.t)) (player : Player.t)
  : result t :=
  let* self := layout rooms in
  let* _ := show self player in
  Ok self.

Definition update (self : t) (player : Player.t) : result drawing :=
  show self player.
End Map.

(** ** The game *)

Module Game.
Record t := {
  _data : value;
  player : Player.t;
  rooms : list (string * Room.t);
  items : list (string * Item.t);
  npc : list (string * Nonplayer.t);
  room_map : Map.t
}.

(** [{name: make(v) for name, v in d.items()}] *)
Definition build {A : Type} (make : value → result A) (d : value)
  : result (list (string * A)) :=
  let* entries := py_items d in
  let* made :=
    map_each (fun '(name, v) => let* a := make v in Ok (name, a)) entries in
  Ok (dict_of_items made).

Definition __init__ (data : value) : result t :=
  let* player_data := py_getitem data "player" in
  let* player := Player.__init__ player_data in
  let* rooms_data := py_get data "rooms" in
  let* rooms := build Room.__init__ rooms_data in
  let* items_data := py_get data "items" in
  let* items := build Item.__init__ items_data in
  let* npc_data := py_get data "npc" in
  let* npc := build Nonplayer.__init__ npc_data in
  let* room_map := Map.__init__ rooms player in
  Ok {| _data := data; player := player; rooms := rooms;
        items := items; npc := npc; room_map := room_map |}.

Definition save (self : t) : value :=
  VDict
    [("player", Player.save (player self));
     ("rooms",
      VDict (dict_of_items
               ((fun '(name, room) => (name, Room.save room))
                  <$> rooms self)));
     ("items",
      VDict (dict_of_items
               ((fun '(name, item) => (name, Item.save item))
                  <$> items self)));
     ("npc",
      VDict (dict_of_items
               ((fun '(name, npc) => (name, Nonplayer.save npc))
                  <$> npc self)))].
End Game.

(** ** The validator of [saveload.py]

    What is printed is kept as the list of lines written so far; a check
    that raises keeps the lines printed before it. *)

Module saveload.
Definition DIRECTIONS : list string := ["north"; "south"; "east"; "west"].

Definition io (A : Type) : Type := list string → list string * result A.

Definition print (line : string) : io unit :=
  fun out => (out ++ [line], Ok ()).

Definition raise {A : Type} (e : exn) : io A := fun out => (out, Raise e).

Definition io_bind {A B : Type} (m : io A) (k : A → io B) : io B :=
  fun out =>
    match m out with
    | (out', Ok a) => k a out'
    | (out', Raise e) => (out', Raise e)
    end.

Fixpoint io_for {A : Type} (body : A → io unit) (l : list A) : io unit :=
  match l with
  | [] => fun out => (out, Ok ())
  | a :: l' => io_bind (body a) (fun _ => io_for body l')
  end.

(** [needle in s] on strings *)
Fixpoint contains (needle s : string) : bool :=
  String.prefix needle s ||
  match s with
  | EmptyString => false
  | String _ s' => contains needle s'
  end.

(** [direction in room] *)
Definition py_in (direction : string) (room : value) : result bool :=
  match room with
  | VDict d => Ok (dict_mem direction d)
  | VStr s => Ok (contains direction s)
  | VList l =>
      Ok (existsb (fun v => match v with
                            | VStr s => bool_decide (s = direction)
                            | _ => false
                            end) l)
  | _ => Raise TypeError
  end.

(** The third test, [room[direction] not in rooms], hashes the exit: a
    list or a mapping raises, and an exit that is not a string is never a
    key of [rooms]. *)
Definition _path (rooms : list (string * value)) (name direction : string)
  : io unit :=
  match dict_item name rooms with
  | Raise e => raise e
  | Ok room =>
      match py_in direction room with
      | Raise e => raise e
      | Ok false =>
          print (name ++ " does not have " ++ direction ++ " as a key.")
      | Ok true =>
          match py_getitem room direction with
          | Raise e => raise e
          | Ok VNone =>
              print ("There is nothing " ++ direction ++ " of " ++ name ++ ".")
          | Ok (VStr other) =>
              if negb (dict_mem other rooms)
              then print ("Going " ++ direction ++ " from " ++ name
                            ++ " will lead to an error.")
              else print (other ++ " is " ++ direction ++ " of " ++ name ++ ".")
          | Ok (VList _) | Ok (VDict _) => raise TypeError
          | Ok _ =>
              print ("Going " ++ direction ++ " from " ++ name
                       ++ " will lead to an error.")
          end
      end
  end%string.

(** Lines 65 to 68 of [main]: every room is checked in every direction
    of [DIRECTIONS]. *)
Definition check_rooms (rooms : list (string * value)) : io unit :=
  io_for (fun name =>
    io_for (fun direction => _path rooms name direction) DIRECTIONS)
  (keys rooms).

Definition ITEMDATA : list string := ["holds"].

Section formatting.
(** How a loaded value is printed is left open: [py_str v] is the text an
    f-string puts for [v], and [pprint v] the lines [pprint(v)] prints. *)
Variable py_str : value → string.
Variable pprint : value → list string.

Definition _item (items : list (string * value)) (name idata : string)
  : io unit :=
  match dict_item name items with
  | Raise e => raise e
  | Ok item =>
      match py_in idata item with
      | Raise e => raise e
      | Ok false =>
          print (name ++ " does not have " ++ idata ++ " as a key.")
      | Ok true =>
          match py_getitem item idata with
          | Raise e => raise e
          | Ok VNone => print ("There are no items in " ++ name ++ ".")
          | Ok other => print (py_str other ++ " is in " ++ name ++ ".")
          end
      end
  end%string.

(** Lines 70 to 73 of [main]. *)
Definition check_items (items : list (string * value)) : io unit :=
  io_for (fun name2 =>
    io_for (fun idata => _item items name2 idata) ITEMDATA)
  (keys items).

(** [main], for the document [data] that [_load()] returned.  The two
    tests [isinstance(..., dict)] are the two matches on [VDict]. *)
Definition main (data : value) : io unit :=
  io_bind (print "Data that was loaded:") (fun _ =>
  io_bind (fun out => (out ++ pprint data, Ok ())) (fun _ =>
  io_bind (print "Checking room and item list...") (fun _ =>
  match py_in "Rooms" data with
  | Raise e => raise e
  | Ok false => print "No rooms found."
  | Ok true =>
      match py_in "Items" data with
      | Raise e => raise e
      | Ok false => print "No items found."
      | Ok true =>
          match py_getitem data "Rooms" with
          | Raise e => raise e
          | Ok (VDict rooms) =>
              match py_getitem data "Items" with
              | Raise e => raise e
              | Ok (VDict items) =>
                  io_bind (check_rooms rooms) (fun _ => check_items items)
              | Ok _ => print "items in data were not proper data."
              end
          | Ok _ => print "Rooms in data were not proper data."
          end
      end
  end))).
End formatting.
End saveload.

(** * The vocabulary of the properties

    The steps of the builder's loops under their own names, what the
    loops leave behind in closed form, and sample worlds. *)

Section builder_vocabulary.
Import Map.

Definition directions : list string := ["up"; "down"; "left"; "right"].

Definition origin0 : Point := {| x := 0; y := 0 |}.

(** [if k not in d: d[k] = Point(x=0, y=0)] *)
Definition ensure (k : string) (d : list (string * Point))
  : list (string * Point) :=
  if negb (dict_mem k d) then dict_set k origin0 d else d.

(** The point one unit away in a direction. *)
Definition moved (direction : string) (p : Point) : Point :=
  {| x := x p + (if decide (direction = "right") then 1 else 0)
              - (if decide (direction = "left") then 1 else 0);
     y := y p + (if decide (direction = "down") then 1 else 0)
              - (if decide (direction = "up") then 1 else 0) |}.

(** The origin the source room has once it is ensured to have one. *)
Definition source_of (name : string) (origins : list (string * Point))
  : Point :=
  default origin0 (dict_get name origins).

(** The origins after a non-null exit from [name] to [dest]. *)
Definition placed (direction name dest : string)
    (origins : list (string * Point)) : list (string * Point) :=
  dict_set dest (moved direction (source_of name origins))
    (ensure dest (ensure name origins)).

(** The state of the two loops of [_construct_minimap]: the origins and
    the edges so far. *)
Abbreviation state := (list (string * Point) * list (option (Z * Z)))%type.

(** The body of the loop over the directions. *)
Definition direction_step (nodes : list (string * Z))
    (name : string) (room : Room.t)
  : state → string → result state :=
  fun '(origins, edges) direction =>
    let* '(origins, edge) :=
      _adjust_minimap_origins room direction origins name nodes in
    Ok (origins, edges ++ [edge]).

(** The body of the loop over the rooms. *)
Definition room_step (nodes : list (string * Z))
  : state → string * Room.t → result state :=
  fun '(origins, edges) '(name, room) =>
    for_each (direction_step nodes name room) (origins, edges) directions.

(** The edge [(u, v)] comes from an exit of a room of [rooms]. *)
Definition from_exit (nodes : list (string * Z))
    (rooms : list (string * Room.t))
    (origins : list (string * Point)) (u v : Z) : Prop :=
  ∃ name room direction dest,
    (name, room) ∈ rooms ∧ direction ∈ directions
    ∧ py_getitem (Room.paths room) direction = Ok (VStr dest)
    ∧ dest ≠ ""
    ∧ dict_get name nodes = Some u ∧ dict_get dest nodes = Some v
    ∧ name ∈ keys origins ∧ dest ∈ keys origins.

(** What holds of the state of the loops at every step. *)
Definition sound (nodes : list (string * Z))
    (rooms : list (string * Room.t)) (s : state) : Prop :=
  NoDup (keys s.1)
  ∧ (∀ k, k ∈ keys s.1 → k ∈ keys nodes)
  ∧ (∀ u v, Some (u, v) ∈ s.2 → from_exit nodes rooms s.1 u v).

(** The loops only add origins and edges. *)
Definition grows (s s' : state) : Prop :=
  (∀ k, k ∈ keys s.1 → k ∈ keys s'.1) ∧ (∀ e, e ∈ s.2 → e ∈ s'.2).

(** The provisional ids and the graph [_construct_minimap] starts from. *)
Definition nodes_of (rooms : list (string * Room.t)) : list (string * Z) :=
  dict_of_items (zip (keys rooms) (seqZ 0 (Z.of_nat (length (keys rooms))))).

Definition minimap0 (rooms : list (string * Room.t)) : nx.Graph Z :=
  nx.add_nodes_from (values (nodes_of rooms)) nx.empty.

(** The origins as they are before they are normalised. *)
Definition raw_origins (rooms : list (string * Room.t))
  : result (list (string * Point)) :=
  let* '(origins, _) :=
    _construct_minimap (minimap0 rooms) (nodes_of rooms) rooms in
  Ok origins.

(** The two normalisation passes. *)
Definition shift_x (dx : Z) (origins : list (string * Point))
  : list (string * Point) :=
  if dx <? 0
  then (fun '(name, origin) =>
          (name, {| x := x origin + Z.abs dx; y := y origin |})) <$> origins
  else origins.

Definition shift_y (dy : Z) (origins : list (string * Point))
  : list (string * Point) :=
  if dy <? 0
  then (fun '(name, origin) =>
          (name, {| x := x origin; y := y origin + Z.abs dy |})) <$> origins
  else origins.

(** The two passes move every origin by the same amounts. *)
Definition shifted (dx dy : Z) (p : Point) : Point :=
  {| x := x p + (if dx <? 0 then Z.abs dx else 0);
     y := y p + (if dy <? 0 then Z.abs dy else 0) |}.

(** [room_map] before the two loops of [layout]. *)
Definition blank (origins : list (string * Point))
  : list (string * node_info) :=
  dict_of_items
    ((fun room => (room, {| node_id := None; edges := [] |})) <$> keys origins).

(** [nodes] when the loops over [origins] start: its keys are the room
    names. *)
Definition keyed (nodes : list (string * Z)) : list (key * Z) :=
  (fun '(name, node_id) => (Name name, node_id)) <$> nodes.

(** The body of the loop that numbers the rooms. *)
Definition number_room (width : Z)
  : list (key * Z) * list (string * node_info) → string * Point
    → result (list (key * Z) * list (string * node_info)) :=
  fun '(nodes, room_map) '(name, origin) =>
    let node_id := x origin + y origin * width in
    let* old := dict_item (Name name) nodes in
    let nodes := dict_set (Id old) node_id nodes in
    let* node_info := dict_item name room_map in
    let room_map :=
      dict_set name
        {| node_id := Some node_id; edges := edges node_info |}
        room_map in
    Ok (nodes, room_map).

(** The bodies of the loops that fill in the neighbour lists. *)
Definition append_neighbour (name : string) (nodes : list (key * Z))
  : list (string * node_info) → Z * Z → result (list (string * node_info)) :=
  fun room_map edge =>
    let* node_info := dict_item name room_map in
    let* new := dict_item (Id edge.2) nodes in
    Ok (dict_set name
          {| node_id := node_id node_info;
             edges := edges node_info ++ [new] |}
          room_map).

Definition list_neighbours (nodes : list (key * Z)) (minimap : nx.Graph Z)
  : list (string * node_info) → string * Point
    → result (list (string * node_info)) :=
  fun room_map '(name, origin) =>
    let* old := dict_item (Name name) nodes in
    let* incident := nx.edges old minimap in
    for_each (append_neighbour name nodes) room_map incident.

(** What [nodes] holds, read key by key: the provisional ids of the room
    names, as [names] has them, and the final ids of the provisional ids,
    as [ids] has them. *)
Definition holds (nodes : list (key * Z)) (names : list (string * Z))
    (ids : list (Z * Z)) : Prop :=
  (∀ name, dict_get (Name name) nodes = dict_get name names)
  ∧ (∀ old, dict_get (Id old) nodes = dict_get old ids).

(** The body of the loop that numbers the rooms, with what it stores for
    the provisional ids kept in a dictionary [ids] of its own. *)
Definition number_step (nodes : list (string * Z)) (width : Z)
  : list (Z * Z) * list (string * node_info) → string * Point
    → result (list (Z * Z) * list (string * node_info)) :=
  fun '(ids, room_map) '(name, origin) =>
    let node_id := x origin + y origin * width in
    let* old := dict_item name nodes in
    let ids := dict_set old node_id ids in
    let* node_info := dict_item name room_map in
    let room_map :=
      dict_set name
        {| node_id := Some node_id; edges := edges node_info |}
        room_map in
    Ok (ids, room_map).

(** The bodies of the loops that fill in the neighbour lists, reading
    the final ids from [ids]. *)
Definition append_step (name : string) (ids : list (Z * Z))
  : list (string * node_info) → Z * Z → result (list (string * node_info)) :=
  fun room_map edge =>
    let* node_info := dict_item name room_map in
    let* new := dict_item edge.2 ids in
    Ok (dict_set name
          {| node_id := node_id node_info;
             edges := edges node_info ++ [new] |}
          room_map).

Definition edges_step (nodes : list (string * Z)) (ids : list (Z * Z))
    (minimap : nx.Graph Z)
  : list (string * node_info) → string * Point
    → result (list (string * node_info)) :=
  fun room_map '(name, origin) =>
    let* old := dict_item name nodes in
    let* incident := nx.edges old minimap in
    for_each (append_step name ids) room_map incident.

(** The final node id of a room at [origin] on a grid [width] wide. *)
Definition cell (width : Z) (origin : Point) : Z :=
  x origin + y origin * width.

(** The entry of a room in [room_map]: before the loops, after the first
    and after the second. *)
Definition unnumbered (entry : string * Point) : string * node_info :=
  (entry.1, {| node_id := None; edges := [] |}).

Definition numbered (width : Z) (entry : string * Point)
  : string * node_info :=
  (entry.1, {| node_id := Some (cell width entry.2); edges := [] |}).

(** The neighbours stored for a node, and the final ids of provisional
    ids. *)
Definition neighbours (minimap : nx.Graph Z) (u : Z) : list Z :=
  default [] (dict_get u minimap).

Definition finals (ids : list (Z * Z)) (vs : list Z) : list Z :=
  omap (fun v => dict_get v ids) vs.

Definition finished (nodes : list (string * Z)) (width : Z)
    (ids : list (Z * Z)) (minimap : nx.Graph Z) (entry : string * Point)
  : string * node_info :=
  (entry.1,
   {| node_id := Some (cell width entry.2);
      edges :=
        finals ids (neighbours minimap (default 0 (dict_get entry.1 nodes))) |}).

(** The labels, the nodes and the edges [show] draws. *)
Definition room_labels (m : t) : list (option Z * string) :=
  dict_of_items
    ((fun '(room, node_info) => (node_id node_info, room)) <$> room_map m).

Definition node_ids (m : t) : list (option Z) :=
  (fun '(room, node_info) => node_id node_info) <$> room_map m.

Definition drawn_edges (m : t) : list (option Z * option Z) :=
  mjoin
    ((fun '(room, node_info) =>
        (fun e_node => (node_id node_info, Some e_node)) <$> edges node_info)
       <$> room_map m).

(** [label == location] *)
Definition matches (location : value) (label : string) : bool :=
  match location with
  | VStr s => bool_decide (label = s)
  | _ => false
  end.

(** What the layout guarantees to the renderer. *)
Record laid_out (m : t) : Prop := {
  laid_out_origins : origins m ≠ [];
  laid_out_rooms : NoDup (keys (room_map m));
  laid_out_keys : keys (room_map m) = keys (origins m);
  laid_out_edges :
    ∀ room node_info e,
      (room, node_info) ∈ room_map m → e ∈ edges node_info →
      Some e ∈ node_ids m
}.
(** A room has an exit that is not null to the room named [dest]. *)
Definition linked (rooms : list (string * Room.t)) (name dest : string)
  : Prop :=
  ∃ room direction,
    (name, room) ∈ rooms ∧ direction ∈ directions
    ∧ py_getitem (Room.paths room) direction = Ok (VStr dest)
    ∧ dest ≠ "".

(** A room has its four exits, each null or a string. *)
Definition plain_exits (room : Room.t) : Prop :=
  ∃ d, Room.paths room = VDict d
    ∧ ∀ direction, direction ∈ directions →
        ∃ exit, dict_get direction d = Some exit
          ∧ (exit = VNone ∨ ∃ dest, exit = VStr dest).

(** Every exit that is not null names a room. *)
Definition closed (rooms : list (string * Room.t)) : Prop :=
  ∀ name dest, linked rooms name dest → dest ∈ keys rooms.

(** The position [show] gives the room of an entry of [origins]. *)
Definition plotted (width max_y : Z) (entry : string * Point)
  : option Z * (Z * Z) :=
  (Some (cell width entry.2), (x entry.2, Z.abs (y entry.2 - max_y))).
End builder_vocabulary.

Section graph_vocabulary.
Context {N : Type} `{EqDecision N}.

(** [b] is stored as a neighbour of [a]. *)
Definition nbr (g : nx.Graph N) (a b : N) : Prop :=
  ∃ ns, dict_get a g = Some ns ∧ b ∈ ns.

(** The keys a dictionary gets when keys are stored one after the other. *)
Definition stored (ks : list N) (k : N) : list N :=
  if bool_decide (k ∈ ks) then ks else ks ++ [k].
End graph_vocabulary.

Section validator_vocabulary.
Import saveload.

(** Exits that can be looked up in a dictionary. *)
Definition hashable (v : value) : bool :=
  match v with
  | VList _ | VDict _ => false
  | _ => true
  end.

(** The line for a dangling exit. *)
Definition dangling_line (name direction : string) : string :=
  ("Going " ++ direction ++ " from " ++ name ++ " will lead to an error.")%string.

(** A room that is a mapping whose exits in the checked directions can be
    looked up. *)
Definition checkable (room : value) : Prop :=
  ∃ d, room = VDict d
    ∧ ∀ direction exit,
        direction ∈ DIRECTIONS → dict_get direction d = Some exit →
        hashable exit = true.

(** The line a check prints, as a function of what is checked. *)
Definition printed (rooms : list (string * value)) (name direction : string)
  : list string :=
  (_path rooms name direction []).1.
(** What [main] prints before it checks anything. *)
Definition header (pprint : value → list string) (data : value)
  : list string :=
  ["Data that was loaded:"] ++ pprint data
    ++ ["Checking room and item list..."].

(** Values that are neither text nor containers. *)
Definition scalar (v : value) : Prop :=
  v = VNone ∨ (∃ b, v = VBool b) ∨ (∃ n, v = VInt n).

(** The line a check of an item prints. *)
Definition item_printed (py_str : value → string)
    (items : list (string * value)) (name idata : string) : list string :=
  (_item py_str items name idata []).1.
End validator_vocabulary.

(** ** Sample worlds *)

Module Samples.
Definition room (up down left right : value) : Room.t :=
  {| Room.messages := VNone; Room.door := VNone; Room.fight := VNone;
     Room.paths :=
       VDict [("up", up); ("down", down); ("left", left); ("right", right)] |}.

Definition player_at (location : string) : Player.t :=
  {| Player.position := VDict [("location", VStr location)];
     Player.inventory := VList []; Player.stats := VNone |}.

(** Two rooms side by side that name each other. *)
Definition corridor : list (string * Room.t) :=
  [("A", room VNone VNone VNone (VStr "B"));
   ("B", room VNone VNone (VStr "A") VNone)].

(** Two rooms one above the other that name each other. *)
Definition stairs : list (string * Room.t) :=
  [("A", room (VStr "B") VNone VNone VNone);
   ("B", room VNone (VStr "A") VNone VNone)].

(** The corridor and a room that nobody names and that names nobody. *)
Definition annex : list (string * Room.t) :=
  corridor ++ [("C", room VNone VNone VNone VNone)].

(** A room whose right exit names no room. *)
Definition ghost : list (string * Room.t) :=
  [("A", room VNone VNone VNone (VStr "Ghost"))].

(** Two rooms that each have the other on their right. *)
Definition ring : list (string * Room.t) :=
  [("A", room VNone VNone VNone (VStr "B"));
   ("B", room VNone VNone VNone (VStr "A"))].

(** Two rooms that lead into a third from different sides. *)
Definition fork : list (string * Room.t) :=
  [("A", room VNone VNone VNone (VStr "C"));
   ("B", room VNone (VStr "C") VNone VNone);
   ("C", room VNone VNone VNone VNone)].

(** One room whose right exit is the room itself. *)
Definition mirror : list (string * Room.t) :=
  [("A", room VNone VNone VNone (VStr "A"))].

(** One room without exits. *)
Definition vault : list (string * Room.t) :=
  [("A", room VNone VNone VNone VNone)].


(** A world document with two rooms, an item and a character; the rooms
    carry a key that no record reads. *)
Definition world : value :=
  VDict
    [("player",
      VDict [("position", VDict [("location", VStr "A")]);
             ("inventory", VList [VStr "lamp"]);
             ("stats", VDict [("health", VInt 10)])]);
     ("rooms",
      VDict
        [("A",
          VDict [("messages", VStr "A cold room.");
                 ("paths",
                  VDict [("up", VNone); ("down", VNone); ("left", VNone);
                         ("right", VStr "B")]);
                 ("colour", VStr "grey")]);
         ("B",
          VDict [("messages", VStr "A warm room.");
                 ("door", VBool true);
                 ("paths",
                  VDict [("up", VNone); ("down", VNone); ("left", VStr "A");
                         ("right", VNone)])])]);
     ("items",
      VDict [("lamp", VDict [("description", VStr "A lamp."); ("damage", VInt 0)])]);
     ("npc",
      VDict [("troll", VDict [("health", VInt 5); ("attack", VInt 2);
                              ("points", VInt 3)])])].
(** A document for the validator: two rooms, one with a dangling exit,
    and an item. *)
Definition listing : list (string * value) :=
  [("Rooms",
    VDict [("Hall", VDict [("north", VStr "Attic"); ("south", VNone)]);
           ("Attic", VDict [("south", VStr "Hall"); ("east", VStr "Ghost")])]);
   ("Items", VDict [("chest", VDict [("holds", VStr "key")])])].
End Samples.

(** * Properties *)

(** ** The exception monad and loops *)

Lemma bind_Ok {A B : Type} (m : result A) (k : A → result B) (b : B) :
  bind m k = Ok b ↔ ∃ a, m = Ok a ∧ k a = Ok b.
Proof.
  destruct m as [a|e]; simpl; split.
  - eauto.
  - by intros (a' & [= <-] & ?).
  - done.
  - by intros (a' & ? & ?).
Qed.

Ltac inv_bind H :=
  repeat match type of H with
    | bind ?m ?k = Ok ?b =>
        let a := fresh "a" in
        let Ha := fresh "Hm" in
        apply bind_Ok in H as (a & Ha & H)
    | (let '(_, _) := ?p in _) = Ok _ => destruct p
    end.

Lemma for_each_app {A S : Type} (body : S → A → result S) s l1 l2 :
  for_each body s (l1 ++ l2)
  = bind (for_each body s l1) (fun s' => for_each body s' l2).
Proof.
  revert s; induction l1 as [|a l1 IH]; intros s; simpl; [done|].
  destruct (body s a); simpl; auto.
Qed.

(** A property of the loop state that every iteration keeps also holds
    when the loop is left normally. *)
Lemma for_each_inv {A S : Type} (P : S → Prop) (body : S → A → result S) l :
  ∀ s s',
    (∀ s a s', a ∈ l → P s → body s a = Ok s' → P s') →
    P s → for_each body s l = Ok s' → P s'.
Proof.
  induction l as [|a l IH]; simpl; intros s s' Hstep Hs Hrun.
  - by injection Hrun as <-.
  - apply bind_Ok in Hrun as (s1 & H1 & Hrun).
    eapply (IH s1); [|by eapply Hstep; [left|..]|done].
    intros ? ? ? ?; apply Hstep; by right.
Qed.

Lemma map_each_Ok_fmap {A B : Type} (f : A → result B) (g : A → B) l :
  (∀ a, a ∈ l → f a = Ok (g a)) → map_each f l = Ok (g <$> l).
Proof.
  induction l as [|a l IH]; intros Hf; simpl; [done|].
  rewrite Hf by left; simpl. rewrite IH; [done|].
  intros ? ?; apply Hf; by right.
Qed.

(** What a loop has done for one of its elements: the element's iteration
    ran, from a state reached from the initial one to a state from which
    the final one is reached. *)
Lemma for_each_elem {A S : Type} (R : S → S → Prop) `{!PreOrder R}
    (body : S → A → result S) l :
  (∀ s a s', body s a = Ok s' → R s s') →
  ∀ s s' a, a ∈ l → for_each body s l = Ok s' →
    ∃ s1 s2, R s s1 ∧ body s1 a = Ok s2 ∧ R s2 s'.
Proof.
  intros Hstep. induction l as [|b l IH]; intros s s' a Hin Hrun.
  - by apply elem_of_nil in Hin.
  - simpl in Hrun. apply bind_Ok in Hrun as (s1 & Hb & Hrun).
    assert (∀ t t', for_each body t l = Ok t' → R t t') as Hrest.
    { clear -Hstep PreOrder0. induction l as [|c l IHl]; intros t t' Hr; simpl in Hr.
      - injection Hr as <-. reflexivity.
      - apply bind_Ok in Hr as (t1 & Hc & Hr).
        etrans; [by eapply Hstep|by apply IHl]. }
    apply elem_of_cons in Hin as [->|Hin].
    + exists s, s1. split_and!; [reflexivity|done|by apply Hrest].
    + destruct (IH s1 s' a Hin Hrun) as (t1 & t2 & Ht1 & Ht & Ht2).
      exists t1, t2. split_and!; [|done..].
      etrans; [by eapply Hstep|done].
Qed.

Lemma map_each_total {A B : Type} (f : A → result B) (l : list A) :
  (∀ a, a ∈ l → ∃ b, f a = Ok b) → ∃ bs, map_each f l = Ok bs.
Proof.
  induction l as [|a l IH]; intros Hf; simpl; [by eexists|].
  destruct (Hf a) as [b ->]; [left|].
  destruct IH as [bs ->]; [intros c Hc; apply Hf; by right|].
  by eexists.
Qed.

(** ** Reductions and searches *)

Section reductions.
Context {A : Type} (key : A → Z).

Lemma fold_min_spec l a :
  let m := fold_left (fun best c => if key c <? key best then c else best) l a in
  m ∈ a :: l ∧ ∀ b, b ∈ a :: l → key m ≤ key b.
Proof.
  revert a. induction l as [|c l IH]; intros a; simpl.
  - split; [left|]. intros b ->%list_elem_of_singleton. lia.
  - destruct (IH (if key c <? key a then c else a)) as [Hin Hle]. split.
    + apply elem_of_cons in Hin as [->|Hin].
      * destruct (key c <? key a); [right; left|left].
      * right; by right.
    + intros b Hb. destruct (Z.ltb_spec (key c) (key a)).
      * apply elem_of_cons in Hb as [->|Hb]; [|by apply Hle].
        etrans; [apply (Hle c); left|lia].
      * apply elem_of_cons in Hb as [->|[->|Hb]%elem_of_cons].
        -- apply Hle; left.
        -- etrans; [apply (Hle a); left|lia].
        -- apply Hle; by right.
Qed.

Lemma fold_max_spec l a :
  let m := fold_left (fun best c => if key c >? key best then c else best) l a in
  m ∈ a :: l ∧ ∀ b, b ∈ a :: l → key b ≤ key m.
Proof.
  revert a. induction l as [|c l IH]; intros a; simpl.
  - split; [left|]. intros b ->%list_elem_of_singleton. lia.
  - destruct (IH (if key c >? key a then c else a)) as [Hin Hle]. split.
    + apply elem_of_cons in Hin as [->|Hin].
      * destruct (key c >? key a); [right; left|left].
      * right; by right.
    + intros b Hb. destruct (key c >? key a) eqn:Hgt;
        rewrite Z.gtb_ltb in Hgt;
        [apply Z.ltb_lt in Hgt|apply Z.ltb_ge in Hgt].
      * apply elem_of_cons in Hb as [->|Hb]; [|by apply Hle].
        etrans; [|apply (Hle c); left]. lia.
      * apply elem_of_cons in Hb as [->|[->|Hb]%elem_of_cons].
        -- apply Hle; left.
        -- etrans; [|apply (Hle a); left]. lia.
        -- apply Hle; by right.
Qed.

Lemma py_min_Ok_inv l m :
  py_min key l = Ok m → m ∈ l ∧ ∀ b, b ∈ l → key m ≤ key b.
Proof.
  destruct l as [|a l]; [done|]. intros [= <-]. apply fold_min_spec.
Qed.

Lemma py_max_Ok_inv l m :
  py_max key l = Ok m → m ∈ l ∧ ∀ b, b ∈ l → key b ≤ key m.
Proof.
  destruct l as [|a l]; [done|]. intros [= <-]. apply fold_max_spec.
Qed.

Lemma py_min_nonempty l : l ≠ [] → ∃ m, py_min key l = Ok m.
Proof. destruct l; [done|]. by eexists. Qed.

Lemma py_max_nonempty l : l ≠ [] → ∃ m, py_max key l = Ok m.
Proof. destruct l; [done|]. by eexists. Qed.

Lemma py_min_empty l : py_min key l = Raise (ValueError EmptySequence) ↔ l = [].
Proof. by destruct l. Qed.
End reductions.

Section index.
Context {A : Type} (same : A → bool).

Lemma py_index_absent l :
  (∀ a, a ∈ l → same a = false) →
  py_index same l = Raise (ValueError NotInList).
Proof.
  induction l as [|a l IH]; intros Hnone; simpl; [done|].
  rewrite Hnone by left. rewrite IH; [done|].
  intros b Hb. apply Hnone. by right.
Qed.

Lemma py_index_present l :
  (∃ a, a ∈ l ∧ same a = true) →
  ∃ i a, py_index same l = Ok i ∧ l !! i = Some a ∧ same a = true.
Proof.
  induction l as [|b l IH]; intros (a & Hin & Ha).
  - by apply elem_of_nil in Hin.
  - simpl. destruct (same b) eqn:Hb.
    + by exists 0%nat, b.
    + apply elem_of_cons in Hin as [->|Hin]; [congruence|].
      destruct IH as (i & c & -> & Hi & Hc); [by eauto|].
      by exists (S i), c.
Qed.
End index.

(** ** Dictionaries *)

Section dict_facts.
Context {K V : Type} `{EqDecision K}.
Implicit Types (k : K) (v : V) (d : list (K * V)).

Lemma dict_get_set_eq k v d : dict_get k (dict_set k v d) = Some v.
Proof.
  induction d as [|[k' v'] d IH]; simpl.
  - by rewrite decide_True.
  - destruct (decide (k = k')) as [->|Hne]; simpl.
    + by rewrite decide_True.
    + by rewrite decide_False.
Qed.

Lemma dict_get_set_ne k k' v d :
  k ≠ k' → dict_get k' (dict_set k v d) = dict_get k' d.
Proof.
  intros Hne. induction d as [|[k0 v0] d IH]; simpl.
  - by rewrite decide_False.
  - destruct (decide (k = k0)) as [->|Hne0]; simpl.
    + by rewrite !decide_False.
    + by rewrite IH.
Qed.

Lemma dict_get_Some_elem k v d : dict_get k d = Some v → (k, v) ∈ d.
Proof.
  induction d as [|[k' v'] d IH]; simpl; [done|].
  destruct (decide (k = k')) as [->|Hne].
  - intros [= ->]; left.
  - intros ?; right; auto.
Qed.

Lemma dict_get_None_keys k d : dict_get k d = None ↔ k ∉ keys d.
Proof.
  unfold keys. induction d as [|[k' v'] d IH]; simpl.
  - split; [intros _; apply not_elem_of_nil | done].
  - rewrite not_elem_of_cons. destruct (decide (k = k')) as [->|Hne].
    + split; [done | by intros [? _]].
    + rewrite IH. tauto.
Qed.

Lemma dict_get_is_Some_keys k d : is_Some (dict_get k d) ↔ k ∈ keys d.
Proof.
  destruct (dict_get k d) eqn:Hg.
  - split; [intros _|by eauto].
    destruct (decide (k ∈ keys d)) as [|Hn]; [done|].
    apply dict_get_None_keys in Hn. congruence.
  - split; [by intros [? ?]|].
    intros Hin. by apply dict_get_None_keys in Hg.
Qed.

Lemma dict_mem_keys k d : dict_mem k d = true ↔ k ∈ keys d.
Proof.
  rewrite <- dict_get_is_Some_keys. unfold dict_mem.
  destruct (dict_get k d); split; intros Hx; try done; eauto.
Qed.

Lemma dict_mem_false_keys k d : dict_mem k d = false ↔ k ∉ keys d.
Proof.
  rewrite <- dict_mem_keys. destruct (dict_mem k d); split; congruence.
Qed.

Lemma dict_get_elem_NoDup k v d :
  NoDup (keys d) → (k, v) ∈ d → dict_get k d = Some v.
Proof.
  unfold keys. induction d as [|[k' v'] d IH]; simpl.
  - intros _ Hin. by apply elem_of_nil in Hin.
  - intros Hnd Hin. apply NoDup_cons in Hnd as [Hk' Hnd].
    apply elem_of_cons in Hin as [[= -> ->]|Hin].
    + by rewrite decide_True.
    + rewrite decide_False; [by apply IH|].
      intros ->. apply Hk'. apply list_elem_of_fmap. by exists (k', v).
Qed.

Lemma keys_dict_set k v d :
  keys (dict_set k v d) = if dict_mem k d then keys d else keys d ++ [k].
Proof.
  unfold keys, dict_mem. induction d as [|[k' v'] d IH]; csimpl; [done|].
  destruct (decide (k = k')) as [->|Hne]; csimpl; [done|].
  rewrite IH. by destruct (dict_get k d).
Qed.

Lemma keys_dict_set_elem k k' v d :
  k' ∈ keys (dict_set k v d) ↔ k' = k ∨ k' ∈ keys d.
Proof.
  rewrite keys_dict_set. destruct (dict_mem k d) eqn:Hm.
  - apply dict_mem_keys in Hm. split; [tauto|]. intros [->|?]; done.
  - rewrite elem_of_app, list_elem_of_singleton. tauto.
Qed.

Lemma NoDup_keys_dict_set k v d :
  NoDup (keys d) → NoDup (keys (dict_set k v d)).
Proof.
  intros Hnd. rewrite keys_dict_set. destruct (dict_mem k d) eqn:Hm; [done|].
  apply dict_mem_false_keys in Hm.
  apply NoDup_app; split_and!; [done| |apply NoDup_singleton].
  intros k' Hk' ->%list_elem_of_singleton. done.
Qed.

Lemma dict_set_fresh k v d : k ∉ keys d → dict_set k v d = d ++ [(k, v)].
Proof.
  unfold keys. induction d as [|[k' v'] d IH]; simpl; [done|].
  rewrite not_elem_of_cons. intros [Hne Hk].
  rewrite decide_False by done. by rewrite IH.
Qed.

Lemma fold_dict_set_NoDup (l acc : list (K * V)) :
  NoDup (keys (acc ++ l)) →
  fold_left (fun d kv => dict_set kv.1 kv.2 d) l acc = acc ++ l.
Proof.
  revert acc; induction l as [|[k v] l IH]; intros acc Hnd; simpl.
  - by rewrite app_nil_r.
  - rewrite dict_set_fresh.
    + rewrite IH; rewrite <- app_assoc; done.
    + unfold keys in *. rewrite fmap_app in Hnd.
      apply NoDup_app in Hnd as (_ & Hdisj & _).
      intros Hin. apply (Hdisj k Hin). simpl. left.
Qed.

(** A comprehension over pairwise distinct keys is the list of its items. *)
Lemma dict_of_items_NoDup (l : list (K * V)) :
  NoDup (keys l) → dict_of_items l = l.
Proof. intros Hnd. unfold dict_of_items. by rewrite fold_dict_set_NoDup. Qed.

Lemma NoDup_keys_fold_dict_set (l acc : list (K * V)) :
  NoDup (keys acc) →
  NoDup (keys (fold_left (fun d kv => dict_set kv.1 kv.2 d) l acc)).
Proof.
  revert acc; induction l as [|[k v] l IH]; intros acc Hnd; simpl; [done|].
  apply IH. by apply NoDup_keys_dict_set.
Qed.

Lemma NoDup_keys_dict_of_items (l : list (K * V)) :
  NoDup (keys (dict_of_items l)).
Proof. apply NoDup_keys_fold_dict_set. apply NoDup_nil_2. Qed.
End dict_facts.

Section dict_update.
Context {K V : Type} `{EqDecision K}.
Implicit Types (k : K) (v w : V) (d : list (K * V)).

Lemma dict_get_app_fresh k d1 d2 :
  k ∉ keys d1 → dict_get k (d1 ++ d2) = dict_get k d2.
Proof.
  unfold keys. induction d1 as [|[k' v'] d1 IH]; csimpl; [done|].
  rewrite not_elem_of_cons. intros [Hne Hk].
  rewrite decide_False by done. by apply IH.
Qed.

Lemma dict_set_app_fresh k v w d1 d2 :
  k ∉ keys d1 → dict_set k v (d1 ++ (k, w) :: d2) = d1 ++ (k, v) :: d2.
Proof.
  unfold keys. induction d1 as [|[k' v'] d1 IH]; csimpl.
  - intros _. by rewrite decide_True.
  - rewrite not_elem_of_cons. intros [Hne Hk].
    rewrite decide_False by done. by rewrite IH.
Qed.

Lemma dict_set_set k v w d : dict_set k v (dict_set k w d) = dict_set k v d.
Proof.
  induction d as [|[k' v'] d IH]; simpl.
  - by rewrite decide_True.
  - destruct (decide (k = k')) as [->|Hne]; simpl.
    + by rewrite decide_True.
    + rewrite decide_False by done. by rewrite IH.
Qed.

Lemma dict_set_id k v d : dict_get k d = Some v → dict_set k v d = d.
Proof.
  induction d as [|[k' v'] d IH]; simpl; [done|].
  destruct (decide (k = k')) as [->|Hne].
  - by intros [= ->].
  - intros ?. by rewrite IH.
Qed.

Lemma dict_get_fold_set_elem k v (l acc : list (K * V)) :
  dict_get k (fold_left (fun d kv => dict_set kv.1 kv.2 d) l acc) = Some v →
  (k, v) ∈ l ∨ dict_get k acc = Some v.
Proof.
  revert acc. induction l as [|[k' v'] l IH]; intros acc; simpl; [by right|].
  intros [?|Hacc]%IH; [left; by right|].
  destruct (decide (k' = k)) as [->|Hne].
  - rewrite dict_get_set_eq in Hacc. injection Hacc as ->. left; left.
  - rewrite dict_get_set_ne in Hacc by done. by right.
Qed.

Lemma dict_get_of_items_elem k v (l : list (K * V)) :
  dict_get k (dict_of_items l) = Some v → (k, v) ∈ l.
Proof. by intros [?|?]%dict_get_fold_set_elem. Qed.

Lemma dict_get_fmap_value {W : Type} (f : K → V → W) k d :
  dict_get k ((fun kv => (kv.1, f kv.1 kv.2)) <$> d) = f k <$> dict_get k d.
Proof.
  induction d as [|[k' v'] d IH]; csimpl; [done|].
  case_decide; [by subst|done].
Qed.

Lemma keys_fmap_same {W : Type} (f : K * V → K * W) d :
  (∀ kv, (f kv).1 = kv.1) → keys (f <$> d) = keys d.
Proof.
  intros Hf. unfold keys. rewrite <- list_fmap_compose.
  apply list_fmap_ext. intros _ kv _. apply Hf.
Qed.

Lemma keys_fmap_value {W : Type} (f : K → V → W) d :
  keys ((fun kv => (kv.1, f kv.1 kv.2)) <$> d) = keys d.
Proof.
  unfold keys. rewrite <- list_fmap_compose. by apply list_fmap_ext.
Qed.
End dict_update.

Section dict_values.
Context {K V : Type} `{EqDecision K}.
Implicit Types (k : K) (v : V) (d : list (K * V)).

Lemma values_dict_set_elem k v d w :
  w ∈ values (dict_set k v d) → w = v ∨ w ∈ values d.
Proof.
  unfold values. induction d as [|[k' v'] d IH]; csimpl.
  - intros ->%list_elem_of_singleton. by left.
  - destruct (decide (k = k')) as [->|Hne]; csimpl.
    + rewrite !elem_of_cons. tauto.
    + rewrite !elem_of_cons. intros [->|Hw]; [tauto|]. apply IH in Hw. tauto.
Qed.

Lemma NoDup_values_dict_set k v d :
  NoDup (values d) → v ∉ values d → NoDup (values (dict_set k v d)).
Proof.
  unfold values. induction d as [|[k' v'] d IH]; csimpl.
  - intros _ _. apply NoDup_singleton.
  - intros [Hv' Hnd]%NoDup_cons [Hne Hv]%not_elem_of_cons.
    destruct (decide (k = k')) as [->|Hk]; csimpl.
    + apply NoDup_cons. by split.
    + apply NoDup_cons. split; [|by apply IH].
      intros [->|Hin]%values_dict_set_elem; done.
Qed.

(** A comprehension with pairwise distinct values has pairwise distinct
    values. *)
Lemma NoDup_values_fold_dict_set (l acc : list (K * V)) :
  NoDup (values acc ++ values l) →
  NoDup (values (fold_left (fun d kv => dict_set kv.1 kv.2 d) l acc)).
Proof.
  revert acc. induction l as [|[k v] l IH]; intros acc; csimpl.
  - unfold values. csimpl. by rewrite app_nil_r.
  - intros Hnd. apply IH. unfold values in Hnd. csimpl in Hnd.
    apply NoDup_app in Hnd as (Hacc & Hdisj & [Hv Hl]%NoDup_cons).
    assert (v ∉ values acc) as Hfresh.
    { intros Hin. apply (Hdisj v Hin). left. }
    apply NoDup_app. split_and!.
    + by apply NoDup_values_dict_set.
    + intros w [->|Hw]%values_dict_set_elem; [done|].
      intros Hin. apply (Hdisj w Hw). by right.
    + done.
Qed.

Lemma values_fold_dict_set_elem (l acc : list (K * V)) w :
  w ∈ values (fold_left (fun d kv => dict_set kv.1 kv.2 d) l acc) →
  w ∈ values l ∨ w ∈ values acc.
Proof.
  revert acc. induction l as [|[k v] l IH]; intros acc; csimpl; [by right|].
  intros [Hl|[->|Hacc]%values_dict_set_elem]%IH.
  - left. unfold values. csimpl. by right.
  - left. unfold values. csimpl. left.
  - by right.
Qed.

Lemma values_dict_of_items_elem (l : list (K * V)) w :
  w ∈ values (dict_of_items l) → w ∈ values l.
Proof.
  intros [?|Hnil]%values_fold_dict_set_elem; [done|].
  by apply elem_of_nil in Hnil.
Qed.

Lemma NoDup_values_dict_of_items (l : list (K * V)) :
  NoDup (values l) → NoDup (values (dict_of_items l)).
Proof. intros Hnd. by apply NoDup_values_fold_dict_set. Qed.
End dict_values.

Lemma keys_fmap_pair {A B : Type} (f : A → B) (l : list (string * A)) :
  keys ((fun '(name, a) => (name, f a)) <$> l) = keys l.
Proof.
  unfold keys. induction l as [|[k a] l IH]; csimpl; [done|]. by rewrite IH.
Qed.

Lemma map_each_retract {A B : Type} (f : B → result A) (g : A → B) l :
  (∀ a, f (g a) = Ok a) → map_each f (g <$> l) = Ok l.
Proof.
  intros Hfg. induction l as [|a l IH]; csimpl; [done|].
  by rewrite Hfg, IH.
Qed.

(** ** Entity records and the saved snapshot *)

Section records.
Lemma Player_init_save p : Player.__init__ (Player.save p) = Ok p.
Proof. by destruct p. Qed.

Lemma Room_init_save r : Room.__init__ (Room.save r) = Ok r.
Proof. by destruct r. Qed.

Lemma Item_init_save i : Item.__init__ (Item.save i) = Ok i.
Proof. by destruct i. Qed.

Lemma Nonplayer_init_save n : Nonplayer.__init__ (Nonplayer.save n) = Ok n.
Proof. by destruct n. Qed.

(** Rebuilding a dictionary of records from its saved form gives the
    dictionary back. *)
Lemma build_saved {A : Type} (make : value → result A) (save : A → value)
    (l : list (string * A)) :
  (∀ a, make (save a) = Ok a) →
  NoDup (keys l) →
  Game.build make
    (VDict (dict_of_items ((fun '(name, a) => (name, save a)) <$> l)))
  = Ok l.
Proof.
  intros Hms Hnd. unfold Game.build; simpl.
  rewrite dict_of_items_NoDup by (by rewrite keys_fmap_pair).
  rewrite (map_each_retract _ (fun '(name, a) => (name, save a))).
  - simpl. by rewrite dict_of_items_NoDup.
  - intros [name a]. by rewrite Hms.
Qed.

Lemma saved_player g :
  py_getitem (Game.save g) "player" = Ok (Player.save (Game.player g)).
Proof. reflexivity. Qed.

Lemma saved_rooms g :
  py_get (Game.save g) "rooms"
  = Ok (VDict (dict_of_items
                 ((fun '(name, room) => (name, Room.save room))
                    <$> Game.rooms g))).
Proof. reflexivity. Qed.

Lemma saved_items g :
  py_get (Game.save g) "items"
  = Ok (VDict (dict_of_items
                 ((fun '(name, item) => (name, Item.save item))
                    <$> Game.items g))).
Proof. reflexivity. Qed.

Lemma saved_npc g :
  py_get (Game.save g) "npc"
  = Ok (VDict (dict_of_items
                 ((fun '(name, npc) => (name, Nonplayer.save npc))
                    <$> Game.npc g))).
Proof. reflexivity. Qed.

Lemma build_NoDup {A : Type} (make : value → result A) d l :
  Game.build make d = Ok l → NoDup (keys l).
Proof.
  unfold Game.build. intros H. inv_bind H. injection H as <-.
  apply NoDup_keys_dict_of_items.
Qed.
End records.

(** C10: an entity record built from a mapping [d] saves to a mapping with
    exactly the record's own keys, in which every key holds [d]'s value for
    it, or [None] when [d] has no such key.  Nothing else of [d] survives,
    and loading the saved mapping gives the record back. *)
Theorem entity_save_fixed_keys (d : list (string * value)) :
  let field k := default VNone (dict_get k d) in
  (∃ p, Player.__init__ (VDict d) = Ok p
        ∧ Player.save p
          = VDict [("position", field "position");
                   ("inventory", field "inventory");
                   ("stats", field "stats")]
        ∧ Player.__init__ (Player.save p) = Ok p)
  ∧ (∃ r, Room.__init__ (VDict d) = Ok r
          ∧ Room.save r
            = VDict [("messages", field "messages");
                     ("door", field "door");
                     ("fight", field "fight");
                     ("paths", field "paths")]
          ∧ Room.__init__ (Room.save r) = Ok r)
  ∧ (∃ i, Item.__init__ (VDict d) = Ok i
          ∧ Item.save i
            = VDict [("description", field "description");
                     ("damage", field "damage")]
          ∧ Item.__init__ (Item.save i) = Ok i)
  ∧ (∃ n, Nonplayer.__init__ (VDict d) = Ok n
          ∧ Nonplayer.save n
            = VDict [("health", field "health");
                     ("attack", field "attack");
                     ("points", field "points")]
          ∧ Nonplayer.__init__ (Nonplayer.save n) = Ok n).
Proof.
  intros field. split_and!; eexists; (split; [reflexivity|]); split;
    reflexivity.
Qed.

(** C7: when a world document [D] loads into a game, the snapshot that the
    game saves loads again, and the game it loads into saves the same
    snapshot.  The snapshot has the four entries player, rooms, items and
    npc and is the same whatever the minimap of the game is. *)
Theorem save_load_idempotent (D : value) (g : Game.t) :
  Game.__init__ D = Ok g →
  (∃ g', Game.__init__ (Game.save g) = Ok g'
         ∧ Game.save g' = Game.save g)
  ∧ (∃ p r i n,
        Game.save g
        = VDict [("player", p); ("rooms", r); ("items", i); ("npc", n)])
  ∧ (∀ m, Game.save
            {| Game._data := Game._data g; Game.player := Game.player g;
               Game.rooms := Game.rooms g; Game.items := Game.items g;
               Game.npc := Game.npc g; Game.room_map := m |}
          = Game.save g).
Proof.
  intros Hload. split_and!; [|by repeat eexists|done].
  unfold Game.__init__ in Hload. inv_bind Hload. injection Hload as <-.
  match goal with H : Game.build Room.__init__ _ = _ |- _ =>
    apply build_NoDup in H end.
  match goal with H : Game.build Item.__init__ _ = _ |- _ =>
    apply build_NoDup in H end.
  match goal with H : Game.build Nonplayer.__init__ _ = _ |- _ =>
    apply build_NoDup in H end.
  eexists. split.
  - unfold Game.__init__.
    rewrite saved_player, saved_rooms, saved_items, saved_npc.
    cbn [bind Game.player Game.rooms Game.items Game.npc].
    rewrite Player_init_save; cbn [bind].
    rewrite (build_saved _ _ _ Room_init_save) by done; cbn [bind].
    rewrite (build_saved _ _ _ Item_init_save) by done; cbn [bind].
    rewrite (build_saved _ _ _ Nonplayer_init_save) by done; cbn [bind].
    match goal with H : Map.__init__ _ _ = Ok _ |- _ => rewrite H end.
    cbn [bind]. reflexivity.
  - reflexivity.
Qed.

(** ** One directional exit: [_adjust_minimap_origins] *)

Section adjust.
Import Map.

Lemma dict_get_ensure k k' d :
  dict_get k' (ensure k d)
  = if decide (k = k') then Some (default origin0 (dict_get k d))
    else dict_get k' d.
Proof.
  unfold ensure, dict_mem. destruct (dict_get k d) eqn:Hg; simpl.
  - case_decide; [by subst|done].
  - case_decide; [subst; apply dict_get_set_eq|by apply dict_get_set_ne].
Qed.

Lemma dict_get_ensure_source name dest origins :
  dict_get name (ensure dest (ensure name origins))
  = Some (source_of name origins).
Proof.
  rewrite !dict_get_ensure. unfold source_of.
  rewrite (decide_True (P := name = name)) by done.
  case_decide; [subst; by rewrite decide_True|done].
Qed.

Lemma keys_ensure_elem k k' d : k' ∈ keys (ensure k d) ↔ k' = k ∨ k' ∈ keys d.
Proof.
  unfold ensure. destruct (dict_mem k d) eqn:Hm; simpl.
  - apply dict_mem_keys in Hm. split; [tauto|]. by intros [->|?].
  - apply keys_dict_set_elem.
Qed.

Lemma NoDup_keys_ensure k d : NoDup (keys d) → NoDup (keys (ensure k d)).
Proof.
  unfold ensure. destruct (negb _); [apply NoDup_keys_dict_set|done].
Qed.

Lemma moved_steps direction p :
  {| x := if decide (direction = "right")
          then (if decide (direction = "left") then x p - 1 else x p) + 1
          else if decide (direction = "left") then x p - 1 else x p;
     y := if decide (direction = "down")
          then (if decide (direction = "up") then y p - 1 else y p) + 1
          else if decide (direction = "up") then y p - 1 else y p |}
  = moved direction p.
Proof.
  unfold moved. destruct p as [px py]; simpl.
  f_equal; repeat case_decide; subst; try discriminate; lia.
Qed.

(** A call on an exit that is a non-empty string and names a room. *)
Lemma adjust_exit room direction origins name nodes dest u v :
  py_getitem (Room.paths room) direction = Ok (VStr dest) →
  dest ≠ "" →
  dict_get name nodes = Some u →
  dict_get dest nodes = Some v →
  _adjust_minimap_origins room direction origins name nodes
  = Ok (placed direction name dest origins, Some (u, v)).
Proof.
  intros Hexit Hdest Hu Hv.
  unfold _adjust_minimap_origins. rewrite Hexit. cbn [bind truthy].
  assert (String.eqb dest "" = false) as -> by (by apply String.eqb_neq).
  cbn [negb exit_key bind].
  fold origin0. fold (ensure name origins).
  fold (ensure dest (ensure name origins)).
  unfold dict_item at 1. rewrite dict_get_ensure_source. cbn [bind].
  unfold dict_item. rewrite Hu, Hv. cbn [bind].
  by rewrite moved_steps.
Qed.

(** A call on an exit that is null, or false in any other way. *)
Lemma adjust_no_exit room direction origins name nodes exit :
  py_getitem (Room.paths room) direction = Ok exit →
  truthy exit = false →
  _adjust_minimap_origins room direction origins name nodes
  = Ok (origins, None).
Proof.
  intros Hexit Hfalse. unfold _adjust_minimap_origins.
  rewrite Hexit. cbn [bind]. by rewrite Hfalse.
Qed.

(** Every call that returns is one of the two above. *)
Lemma adjust_Ok_inv room direction origins name nodes origins' edge :
  _adjust_minimap_origins room direction origins name nodes
  = Ok (origins', edge) →
  ∃ exit, py_getitem (Room.paths room) direction = Ok exit
    ∧ ((truthy exit = false ∧ origins' = origins ∧ edge = None)
       ∨ (∃ dest u v,
            exit = VStr dest ∧ dest ≠ ""
            ∧ dict_get name nodes = Some u
            ∧ dict_get dest nodes = Some v
            ∧ origins' = placed direction name dest origins
            ∧ edge = Some (u, v))).
Proof.
  intros Hcall.
  destruct (py_getitem (Room.paths room) direction) as [exit|e] eqn:Hexit;
    [|by unfold _adjust_minimap_origins in Hcall; rewrite Hexit in Hcall].
  exists exit. split; [done|].
  destruct (truthy exit) eqn:Htruthy.
  - right. pose proof Hcall as Hcall'.
    unfold _adjust_minimap_origins in Hcall.
    rewrite Hexit in Hcall. cbn [bind] in Hcall. rewrite Htruthy in Hcall.
    destruct exit as [| | |dest| |]; try discriminate Hcall.
    assert (dest ≠ "") as Hdest.
    { intros ->. discriminate Htruthy. }
    cbn [exit_key bind] in Hcall.
    destruct (dict_get name nodes) as [u|] eqn:Hu; cycle 1.
    { inv_bind Hcall. unfold dict_item in *.
      match goal with H : match dict_get name nodes with _ => _ end = _ |- _ =>
        by rewrite Hu in H end. }
    destruct (dict_get dest nodes) as [v|] eqn:Hv; cycle 1.
    { inv_bind Hcall. unfold dict_item in *.
      match goal with H : match dict_get dest nodes with _ => _ end = _ |- _ =>
        by rewrite Hv in H end. }
    exists dest, u, v. split_and!; try done.
    + rewrite (adjust_exit _ _ _ _ _ dest u v) in Hcall' by done.
      by injection Hcall' as <- <-.
    + rewrite (adjust_exit _ _ _ _ _ dest u v) in Hcall' by done.
      by injection Hcall' as <- <-.
  - left. rewrite (adjust_no_exit _ _ _ _ _ exit) in Hcall by done.
    by injection Hcall as <- <-.
Qed.

Lemma dict_get_placed direction name dest origins k :
  dict_get k (placed direction name dest origins)
  = if decide (k = dest) then Some (moved direction (source_of name origins))
    else if decide (k = name) then Some (source_of name origins)
    else dict_get k origins.
Proof.
  unfold placed. case_decide as Hd.
  - subst. apply dict_get_set_eq.
  - rewrite dict_get_set_ne by done. case_decide as Hn.
    + subst. apply dict_get_ensure_source.
    + rewrite !dict_get_ensure. by rewrite !decide_False.
Qed.

Lemma keys_placed_elem direction name dest origins k :
  k ∈ keys (placed direction name dest origins)
  ↔ k = name ∨ k = dest ∨ k ∈ keys origins.
Proof.
  unfold placed. rewrite keys_dict_set_elem, !keys_ensure_elem. tauto.
Qed.

Lemma NoDup_keys_placed direction name dest origins :
  NoDup (keys origins) → NoDup (keys (placed direction name dest origins)).
Proof.
  intros ?. by apply NoDup_keys_dict_set, NoDup_keys_ensure, NoDup_keys_ensure.
Qed.
End adjust.

(** ** Graphs *)

Section graph_facts.
Context {N : Type} `{EqDecision N}.
Implicit Types (g : nx.Graph N) (u v a b k n : N) (ks ns : list N).

Lemma keys_dict_set_stored {V : Type} k (x : V) (d : list (N * V)) :
  keys (dict_set k x d) = stored (keys d) k.
Proof.
  rewrite keys_dict_set. unfold stored. destruct (dict_mem k d) eqn:Hm.
  - apply dict_mem_keys in Hm. by rewrite bool_decide_eq_true_2.
  - apply dict_mem_false_keys in Hm. by rewrite bool_decide_eq_false_2.
Qed.

Lemma keys_dict_of_items_stored {V : Type} (items acc : list (N * V)) :
  keys (fold_left (fun d kv => dict_set kv.1 kv.2 d) items acc)
  = fold_left stored (keys items) (keys acc).
Proof.
  revert acc. induction items as [|[k x] items IH]; intros acc; csimpl.
  - done.
  - by rewrite IH, keys_dict_set_stored.
Qed.

Lemma keys_add_node n g : keys (nx.add_node n g) = stored (keys g) n.
Proof.
  unfold nx.add_node. destruct (dict_mem n g) eqn:Hm.
  - apply dict_mem_keys in Hm. unfold stored.
    by rewrite bool_decide_eq_true_2.
  - apply keys_dict_set_stored.
Qed.

Lemma keys_add_nodes_from ns g :
  keys (nx.add_nodes_from ns g) = fold_left stored ns (keys g).
Proof.
  unfold nx.add_nodes_from. revert g.
  induction ns as [|n ns IH]; intros g; simpl; [done|].
  by rewrite IH, keys_add_node.
Qed.

Lemma stored_elem ks k k' : k' ∈ stored ks k ↔ k' = k ∨ k' ∈ ks.
Proof.
  unfold stored. case_bool_decide.
  - split; [tauto|]. by intros [->|?].
  - rewrite elem_of_app, list_elem_of_singleton. tauto.
Qed.

Lemma fold_stored_elem ns ks k :
  k ∈ fold_left stored ns ks ↔ k ∈ ns ∨ k ∈ ks.
Proof.
  revert ks. induction ns as [|n ns IH]; intros ks; simpl.
  - split; [tauto|]. intros [Hx|?]; [by apply elem_of_nil in Hx|done].
  - rewrite IH, stored_elem, elem_of_cons. tauto.
Qed.

Lemma stored_id ks k : k ∈ ks → stored ks k = ks.
Proof. intros ?. unfold stored. by rewrite bool_decide_eq_true_2. Qed.

Lemma dict_get_add_node n g a :
  dict_get a (nx.add_node n g)
  = if dict_mem n g then dict_get a g
    else if decide (n = a) then Some [] else dict_get a g.
Proof.
  unfold nx.add_node. destruct (dict_mem n g); [done|].
  case_decide; [subst; apply dict_get_set_eq|by apply dict_get_set_ne].
Qed.

Lemma nbr_add_node n g a b : nbr (nx.add_node n g) a b ↔ nbr g a b.
Proof.
  unfold nbr. rewrite dict_get_add_node.
  destruct (dict_mem n g) eqn:Hm; [done|]. case_decide; [subst|done].
  unfold dict_mem in Hm. destruct (dict_get a g) eqn:Hg; [done|].
  split; intros (ns & Hns & Hb); [|done].
  injection Hns as <-. by apply elem_of_nil in Hb.
Qed.

Lemma add_nbr_elem v ns b : b ∈ nx.add_nbr v ns ↔ b = v ∨ b ∈ ns.
Proof. apply stored_elem. Qed.

Lemma nbr_link u v g a b :
  nbr (nx.link u v g) a b ↔ nbr g a b ∨ (a = u ∧ b = v).
Proof.
  unfold nbr, nx.link. destruct (decide (u = a)) as [->|Hne].
  - rewrite dict_get_set_eq. split.
    + intros (ns & [= <-] & Hb). apply add_nbr_elem in Hb as [->|Hb]; [by right|].
      left. destruct (dict_get a g) as [ns|]; simpl in Hb; [by eauto|].
      by apply elem_of_nil in Hb.
    + intros [(ns & Hns & Hb)|[_ ->]]; eexists; (split; [done|]);
        apply add_nbr_elem; [right|by left]. by rewrite Hns.
  - rewrite dict_get_set_ne by done. split; [by left|].
    intros [?|[-> _]]; done.
Qed.

Lemma keys_link u v g : keys (nx.link u v g) = stored (keys g) u.
Proof. apply keys_dict_set_stored. Qed.

Lemma nbr_add_edge u v g a b :
  nbr (nx.add_edge u v g) a b
  ↔ nbr g a b ∨ (a = u ∧ b = v) ∨ (a = v ∧ b = u).
Proof.
  unfold nx.add_edge. rewrite !nbr_link, !nbr_add_node. tauto.
Qed.

Lemma keys_add_edge_elem u v g k :
  k ∈ keys (nx.add_edge u v g) ↔ k = u ∨ k = v ∨ k ∈ keys g.
Proof.
  unfold nx.add_edge. rewrite !keys_link, !keys_add_node, !stored_elem.
  tauto.
Qed.

(** An edge between two nodes of the graph adds no node. *)
Lemma keys_add_edge_id u v g :
  u ∈ keys g → v ∈ keys g → keys (nx.add_edge u v g) = keys g.
Proof.
  intros Hu Hv. unfold nx.add_edge.
  rewrite !keys_link, !keys_add_node.
  rewrite (stored_id (keys g) u) by done.
  rewrite (stored_id (keys g) v) by done.
  rewrite (stored_id (keys g) u) by done.
  by rewrite (stored_id (keys g) v).
Qed.

Lemma nbr_add_edges_from es g a b :
  nbr (nx.add_edges_from es g) a b ↔ nbr g a b ∨ (a, b) ∈ es ∨ (b, a) ∈ es.
Proof.
  unfold nx.add_edges_from. revert g.
  induction es as [|[u v] es IH]; intros g; simpl.
  - split; [tauto|]. intros [?|[Hx|Hx]]; [done|by apply elem_of_nil in Hx..].
  - rewrite IH, nbr_add_edge, !elem_of_cons. split.
    + intros [[?|[[-> ->]|[-> ->]]]|[?|?]]; tauto.
    + intros [?|[[[= -> ->]|?]|[[= -> ->]|?]]]; tauto.
Qed.

Lemma keys_add_edges_from_id es g :
  (∀ e, e ∈ es → e.1 ∈ keys g ∧ e.2 ∈ keys g) →
  keys (nx.add_edges_from es g) = keys g.
Proof.
  unfold nx.add_edges_from. revert g.
  induction es as [|[u v] es IH]; intros g Hes; simpl; [done|].
  destruct (Hes (u, v)) as [Hu Hv]; [left|]. simpl in Hu, Hv.
  rewrite IH.
  - by apply keys_add_edge_id.
  - intros e He. rewrite keys_add_edge_id by done. apply Hes. by right.
Qed.

Lemma keys_add_edges_from_mono es g k :
  k ∈ keys g → k ∈ keys (nx.add_edges_from es g).
Proof.
  unfold nx.add_edges_from. revert g.
  induction es as [|[u v] es IH]; intros g Hk; simpl; [done|].
  apply IH. apply keys_add_edge_elem. tauto.
Qed.

Lemma nbr_add_nodes_from ns g a b :
  nbr (nx.add_nodes_from ns g) a b ↔ nbr g a b.
Proof.
  unfold nx.add_nodes_from. revert g.
  induction ns as [|n ns IH]; intros g; simpl; [done|].
  by rewrite IH, nbr_add_node.
Qed.

Lemma nbr_empty a b : ¬ nbr nx.empty a b.
Proof. by intros (ns & Hns & _). Qed.
End graph_facts.

(** ** The room graph: [_construct_minimap] *)

Section construct.
Import Map.
Variable nodes : list (string * Z).

Lemma construct_unfold minimap rooms :
  _construct_minimap minimap nodes rooms
  = let* '(origins, edges) := for_each (room_step nodes) ([], []) rooms in
    Ok (origins, nx.add_edges_from (omap id edges) minimap).
Proof. reflexivity. Qed.

#[local] Instance grows_preorder : PreOrder grows.
Proof.
  split.
  - by intros s.
  - intros s1 s2 s3 [H1 H1'] [H2 H2']. split; auto.
Qed.

Lemma direction_step_Ok_inv name room s direction s' :
  direction_step nodes name room s direction = Ok s' →
  ∃ exit, py_getitem (Room.paths room) direction = Ok exit
    ∧ ((truthy exit = false ∧ s' = (s.1, s.2 ++ [None]))
       ∨ (∃ dest u v,
            exit = VStr dest ∧ dest ≠ ""
            ∧ dict_get name nodes = Some u
            ∧ dict_get dest nodes = Some v
            ∧ s' = (placed direction name dest s.1, s.2 ++ [Some (u, v)]))).
Proof.
  destruct s as [origins edges]. unfold direction_step. intros Hstep.
  apply bind_Ok in Hstep as ([origins' edge] & Hcall & Hstep).
  injection Hstep as <-.
  apply adjust_Ok_inv in Hcall as (exit & Hexit & Hcases).
  exists exit. split; [done|].
  destruct Hcases as [(? & -> & ->)|(dest & u & v & ? & ? & ? & ? & -> & ->)].
  - by left.
  - right. by exists dest, u, v.
Qed.

Lemma direction_step_grows name room s direction s' :
  direction_step nodes name room s direction = Ok s' → grows s s'.
Proof.
  intros (exit & _ & [[_ ->]|(dest & u & v & _ & _ & _ & _ & ->)])
    %direction_step_Ok_inv; split; simpl.
  - done.
  - intros e He. apply elem_of_app. by left.
  - intros k Hk. apply keys_placed_elem. tauto.
  - intros e He. apply elem_of_app. by left.
Qed.

Lemma room_step_grows s name_room s' :
  room_step nodes s name_room = Ok s' → grows s s'.
Proof.
  destruct s as [origins edges], name_room as [name room].
  unfold room_step.
  apply (for_each_inv (grows (origins, edges))); [|reflexivity].
  intros t d t' _ Ht Hd. etrans; [done|by eapply direction_step_grows].
Qed.

Lemma from_exit_grows rooms origins origins' u v :
  (∀ k, k ∈ keys origins → k ∈ keys origins') →
  from_exit nodes rooms origins u v → from_exit nodes rooms origins' u v.
Proof.
  intros Hsub (name & room & direction & dest & ? & ? & ? & ? & ? & ? & ? & ?).
  exists name, room, direction, dest. split_and!; auto.
Qed.

Lemma direction_step_sound rooms name room s direction s' :
  (name, room) ∈ rooms → direction ∈ directions →
  sound nodes rooms s → direction_step nodes name room s direction = Ok s' →
  sound nodes rooms s'.
Proof.
  intros Hroom Hdir (Hnd & Hkeys & Hedges) Hstep.
  pose proof (direction_step_grows _ _ _ _ _ Hstep) as [Hgrow _].
  apply direction_step_Ok_inv in Hstep as (exit & Hexit & Hcases).
  destruct Hcases as [[_ ->]|(dest & u & v & -> & ? & Hu & Hv & ->)];
    simpl in *.
  - split_and!; [done..|]. intros u v [?|Hx%list_elem_of_singleton]%elem_of_app;
      [by apply Hedges|done].
  - split_and!.
    + by apply NoDup_keys_placed.
    + intros k [->|[->|?]]%keys_placed_elem; [..|by auto];
        apply dict_get_is_Some_keys; eauto.
    + intros u' v' [?|[= <- <-]%list_elem_of_singleton]%elem_of_app.
      * eapply from_exit_grows; [done|by apply Hedges].
      * exists name, room, direction, dest.
        split_and!; try done; apply keys_placed_elem; tauto.
Qed.

Lemma room_step_sound rooms s name room s' :
  (name, room) ∈ rooms →
  sound nodes rooms s → room_step nodes s (name, room) = Ok s' →
  sound nodes rooms s'.
Proof.
  destruct s as [origins edges]. unfold room_step. intros Hroom Hs.
  apply (for_each_inv (sound nodes rooms)); [|done].
  intros t d t' Hd Ht. by apply direction_step_sound.
Qed.

Lemma rooms_loop_sound rooms s' :
  for_each (room_step nodes) ([], []) rooms = Ok s' → sound nodes rooms s'.
Proof.
  apply (for_each_inv (sound nodes rooms)).
  - intros s [name room] t Hin Hs. by apply room_step_sound.
  - split_and!; simpl.
    + apply NoDup_nil_2.
    + intros k Hk. by apply elem_of_nil in Hk.
    + intros u v Hx. by apply elem_of_nil in Hx.
Qed.

(** Every non-null exit met by the loops left its edge and gave both of
    its rooms an origin. *)
Lemma rooms_loop_records rooms s0 s' name room direction exit :
  for_each (room_step nodes) s0 rooms = Ok s' →
  (name, room) ∈ rooms → direction ∈ directions →
  py_getitem (Room.paths room) direction = Ok exit →
  truthy exit = true →
  ∃ dest u v,
    exit = VStr dest ∧ dest ≠ ""
    ∧ dict_get name nodes = Some u ∧ dict_get dest nodes = Some v
    ∧ Some (u, v) ∈ s'.2 ∧ name ∈ keys s'.1 ∧ dest ∈ keys s'.1.
Proof.
  intros Hrun Hroom Hdir Hexit Htruthy.
  destruct (for_each_elem grows (room_step nodes) rooms room_step_grows
              _ _ _ Hroom Hrun) as (s1 & s2 & _ & Hstep & [Hk2 He2]).
  destruct s1 as [origins1 edges1]. unfold room_step in Hstep.
  destruct (for_each_elem grows (direction_step nodes name room) directions
              (direction_step_grows name room)
              _ _ _ Hdir Hstep) as (t1 & t2 & _ & Hcall & [Hk3 He3]).
  apply direction_step_Ok_inv in Hcall as (exit' & Hexit' & Hcases).
  rewrite Hexit in Hexit'. injection Hexit' as <-.
  destruct Hcases as [[Hf _]|(dest & u & v & -> & ? & Hu & Hv & ->)];
    [congruence|].
  exists dest, u, v. split_and!; try done.
  - apply He2, He3. simpl. apply elem_of_app. right. left.
  - apply Hk2, Hk3. simpl. apply keys_placed_elem. tauto.
  - apply Hk2, Hk3. simpl. apply keys_placed_elem. tauto.
Qed.
End construct.

(** ** The layout: normalisation, node ids and neighbour lists *)

Section layout.
Import Map.

Lemma layout_loops_unfold rooms :
  layout rooms
  = let* '(origins, minimap) :=
      _construct_minimap (minimap0 rooms) (nodes_of rooms) rooms in
    let* left := py_min x (values origins) in
    let* top := py_min y (values origins) in
    let origins := shift_y (y top) (shift_x (x left) origins) in
    let* right := py_max x (values origins) in
    let* '(nodes, room_map) :=
      for_each (number_room (x right + 1))
        (keyed (nodes_of rooms), blank origins) origins in
    let* room_map :=
      for_each (list_neighbours nodes minimap) room_map origins in
    Ok {| origins := origins; room_map := room_map |}.
Proof. reflexivity. Qed.

Lemma for_each_ext {A S : Type} (body body' : S → A → result S) l :
  (∀ s a, body s a = body' s a) →
  ∀ s, for_each body s l = for_each body' s l.
Proof.
  intros Hext. induction l as [|a l IH]; intros s; [done|].
  simpl. rewrite Hext. destruct (body' s a); simpl; [apply IH|done].
Qed.

Lemma holds_keyed names : holds (keyed names) names [].
Proof.
  split; intros k; induction names as [|[name node_id] names IH]; try done.
  - csimpl. destruct (decide (k = name)) as [->|Hne].
    + by rewrite decide_True.
    + rewrite decide_False by congruence. exact IH.
Qed.

Lemma holds_store nodes names ids old node_id :
  holds nodes names ids →
  holds (dict_set (Id old) node_id nodes) names (dict_set old node_id ids).
Proof.
  intros [Hnames Hids]. split.
  - intros name. by rewrite dict_get_set_ne.
  - intros old'. destruct (decide (old' = old)) as [->|Hne].
    + by rewrite !dict_get_set_eq.
    + rewrite !dict_get_set_ne by congruence. apply Hids.
Qed.

(** With room names that are strings, the keys of [nodes] that are room
    names and those that are provisional ids never meet: the loop that
    numbers the rooms stores for the provisional ids what it would store
    in a dictionary of their own. *)
Lemma number_room_holds names width nodes ids room_map entry :
  holds nodes names ids →
  match number_room width (nodes, room_map) entry,
        number_step names width (ids, room_map) entry with
  | Ok (nodes', room_map'), Ok (ids', room_map'') =>
      holds nodes' names ids' ∧ room_map' = room_map''
  | Raise e, Raise e' => e = e'
  | _, _ => False
  end.
Proof.
  intros Hholds. destruct entry as [name origin].
  unfold number_room, number_step, dict_item. rewrite (proj1 Hholds name).
  destruct (dict_get name names) as [old|]; [|done]. cbn [bind].
  destruct (dict_get name room_map) as [node_info|]; [|done]. cbn [bind].
  split; [by apply holds_store|done].
Qed.

Lemma number_loop_holds names width todo :
  ∀ nodes ids room_map,
    holds nodes names ids →
    match for_each (number_room width) (nodes, room_map) todo,
          for_each (number_step names width) (ids, room_map) todo with
    | Ok (nodes', room_map'), Ok (ids', room_map'') =>
        holds nodes' names ids' ∧ room_map' = room_map''
    | Raise e, Raise e' => e = e'
    | _, _ => False
    end.
Proof.
  induction todo as [|entry todo IH]; intros nodes ids room_map Hholds.
  - done.
  - cbn [for_each].
    pose proof (number_room_holds names width nodes ids room_map entry Hholds)
      as Hstep.
    destruct (number_room width (nodes, room_map) entry) as [[nodes1 rm1]|e1],
      (number_step names width (ids, room_map) entry) as [[ids1 rm1']|e2];
      try done.
    destruct Hstep as [Hholds1 <-]. cbn [bind]. by apply IH.
Qed.

Lemma list_neighbours_holds nodes names ids minimap room_map entry :
  holds nodes names ids →
  list_neighbours nodes minimap room_map entry
  = edges_step names ids minimap room_map entry.
Proof.
  intros [Hnames Hids]. destruct entry as [name origin].
  unfold list_neighbours, edges_step, dict_item. rewrite Hnames.
  destruct (dict_get name names) as [old|]; [|done]. cbn [bind].
  destruct (nx.edges old minimap) as [incident|]; [|done]. cbn [bind].
  apply for_each_ext. intros rm edge.
  unfold append_neighbour, append_step, dict_item. by rewrite Hids.
Qed.

Lemma layout_unfold rooms :
  layout rooms
  = let* '(origins, minimap) :=
      _construct_minimap (minimap0 rooms) (nodes_of rooms) rooms in
    let* left := py_min x (values origins) in
    let* top := py_min y (values origins) in
    let origins := shift_y (y top) (shift_x (x left) origins) in
    let* right := py_max x (values origins) in
    let* '(ids, room_map) :=
      for_each (number_step (nodes_of rooms) (x right + 1))
        ([], blank origins) origins in
    let* room_map :=
      for_each (edges_step (nodes_of rooms) ids minimap) room_map origins in
    Ok {| origins := origins; room_map := room_map |}.
Proof.
  rewrite layout_loops_unfold.
  destruct (_construct_minimap _ _ _) as [[raw minimap]|]; [|done].
  cbn [bind].
  destruct (py_min x _) as [left|]; [|done]. cbn [bind].
  destruct (py_min y _) as [top|]; [|done]. cbn [bind]. cbn zeta.
  set (origins := shift_y _ _).
  destruct (py_max x _) as [right|]; [|done]. cbn [bind].
  pose proof (number_loop_holds (nodes_of rooms) (x right + 1) origins
                _ _ (blank origins) (holds_keyed (nodes_of rooms))) as Hloop.
  destruct (for_each (number_room _) _ _) as [[nodes rm1]|e1],
    (for_each (number_step _ _) _ _) as [[ids rm1']|e2]; try done.
  - destruct Hloop as [Hholds <-]. cbn [bind]. f_equal.
    apply for_each_ext. intros rm entry. by eapply list_neighbours_holds.
  - by subst.
Qed.
End layout.

Section layout_loops.
Import Map.
Variable nodes : list (string * Z).
Variable width : Z.

Lemma blank_unnumbered origins :
  NoDup (keys origins) → blank origins = unnumbered <$> origins.
Proof.
  intros Hnd. unfold blank, keys. rewrite <- list_fmap_compose.
  rewrite dict_of_items_NoDup.
  - by apply list_fmap_ext.
  - unfold keys. rewrite <- list_fmap_compose.
    by rewrite (list_fmap_ext _ fst origins).
Qed.

Lemma number_step_Ok_inv ids room_map name origin ids' room_map' :
  number_step nodes width (ids, room_map) (name, origin) = Ok (ids', room_map') →
  ∃ old node_info,
    dict_get name nodes = Some old
    ∧ dict_get name room_map = Some node_info
    ∧ ids' = dict_set old (cell width origin) ids
    ∧ room_map'
      = dict_set name
          {| node_id := Some (cell width origin); edges := edges node_info |}
          room_map.
Proof.
  unfold number_step, dict_item. intros Hstep.
  destruct (dict_get name nodes) as [old|]; [|done].
  destruct (dict_get name room_map) as [node_info|]; [|done].
  injection Hstep as <- <-. by exists old, node_info.
Qed.

(** The first loop gives every room its final node id, in place. *)
Lemma number_loop_room_map todo :
  ∀ done ids ids' room_map',
    NoDup (keys (done ++ todo)) →
    for_each (number_step nodes width)
      (ids, (numbered width <$> done) ++ (unnumbered <$> todo)) todo
    = Ok (ids', room_map') →
    room_map' = numbered width <$> (done ++ todo).
Proof.
  induction todo as [|[name origin] todo IH];
    intros done ids ids' room_map' Hnd Hrun.
  - injection Hrun as _ <-. by rewrite !app_nil_r.
  - cbn [for_each] in Hrun. apply bind_Ok in Hrun as ([ids1 rm1] & Hstep & Hrun).
    apply number_step_Ok_inv in Hstep as (old & info & _ & Hinfo & _ & ->).
    assert (name ∉ keys (numbered width <$> done)) as Hfresh.
    { rewrite keys_fmap_same by done. unfold keys in *.
      rewrite fmap_app in Hnd. apply NoDup_app in Hnd as (_ & Hdisj & _).
      intros Hin. apply (Hdisj name); [done|left]. }
    csimpl in Hinfo. rewrite dict_get_app_fresh in Hinfo by done.
    unfold unnumbered in Hinfo at 1. simpl in Hinfo.
    rewrite decide_True in Hinfo by done. injection Hinfo as <-.
    csimpl in Hrun. unfold unnumbered at 1 in Hrun. simpl in Hrun.
    rewrite dict_set_app_fresh in Hrun by done.
    specialize (IH (done ++ [(name, origin)]) ids1 ids' room_map').
    rewrite <- !app_assoc in IH. simpl in IH. apply IH; [done|].
    rewrite fmap_app, <- app_assoc. exact Hrun.
Qed.

(** What the first loop stores for provisional ids. *)
Lemma number_loop_ids_inv todo ids room_map ids' room_map' old e :
  for_each (number_step nodes width) (ids, room_map) todo = Ok (ids', room_map') →
  dict_get old ids' = Some e →
  dict_get old ids = Some e
  ∨ ∃ name origin,
      (name, origin) ∈ todo ∧ dict_get name nodes = Some old ∧ e = cell width origin.
Proof.
  revert ids room_map. induction todo as [|[name origin] todo IH];
    intros ids room_map Hrun Hget.
  - injection Hrun as <- _. by left.
  - cbn [for_each] in Hrun. apply bind_Ok in Hrun as ([ids1 rm1] & Hstep & Hrun).
    apply number_step_Ok_inv in Hstep as (old' & info & Hold & _ & -> & _).
    destruct (IH _ _ Hrun Hget) as [Hprev|(name' & origin' & ? & ? & ?)].
    + destruct (decide (old' = old)) as [->|Hne].
      * rewrite dict_get_set_eq in Hprev. injection Hprev as <-.
        right. exists name, origin. split_and!; [left|done..].
      * rewrite dict_get_set_ne in Hprev by done. by left.
    + right. exists name', origin'. split_and!; [by right|done..].
Qed.

Lemma number_loop_ids todo ids room_map ids' room_map' name origin old :
  (∀ n1 n2 u, dict_get n1 nodes = Some u → dict_get n2 nodes = Some u → n1 = n2) →
  NoDup (keys todo) →
  for_each (number_step nodes width) (ids, room_map) todo = Ok (ids', room_map') →
  (name, origin) ∈ todo →
  dict_get name nodes = Some old →
  dict_get old ids' = Some (cell width origin).
Proof.
  intros Hinj. revert ids room_map.
  induction todo as [|[name' origin'] todo IH];
    intros ids room_map Hnd Hrun Hin Hold.
  - by apply elem_of_nil in Hin.
  - cbn [for_each] in Hrun. apply bind_Ok in Hrun as ([ids1 rm1] & Hstep & Hrun).
    unfold keys in Hnd. csimpl in Hnd. apply NoDup_cons in Hnd as [Hfresh Hnd].
    apply elem_of_cons in Hin as [[= <- <-]|Hin]; [|by eapply IH].
    apply number_step_Ok_inv in Hstep as (old' & info & Hold' & _ & -> & _).
    rewrite Hold in Hold'. injection Hold' as <-.
    destruct (dict_get old ids') as [e|] eqn:Hget.
    + destruct (number_loop_ids_inv _ _ _ _ _ _ _ Hrun Hget)
        as [Hprev|(n2 & o2 & Hin2 & Hn2 & ->)].
      * rewrite dict_get_set_eq in Hprev. by injection Hprev as <-.
      * assert (n2 = name) as -> by (by eapply Hinj).
        exfalso. apply Hfresh. apply list_elem_of_fmap. by exists (name, o2).
    + exfalso. clear -Hrun Hget.
      assert (is_Some (dict_get old (dict_set old (cell width origin) ids))) as Hs
        by (rewrite dict_get_set_eq; eauto).
      revert Hs Hrun. generalize (dict_set old (cell width origin) ids). revert rm1.
      induction todo as [|[n o] todo IHt]; intros rm1 ids1 Hs Hrun.
      * injection Hrun as <- _. rewrite Hget in Hs. by destruct Hs.
      * cbn [for_each] in Hrun.
        apply bind_Ok in Hrun as ([ids2 rm2] & Hstep & Hrun).
        apply number_step_Ok_inv in Hstep as (old' & info & _ & _ & -> & _).
        eapply IHt; [|done].
        destruct (decide (old' = old)) as [->|Hne].
        -- rewrite dict_get_set_eq; eauto.
        -- by rewrite dict_get_set_ne.
Qed.
End layout_loops.

Section edges_loop.
Import Map.
Variable nodes : list (string * Z).
Variable width : Z.
Variable ids : list (Z * Z).
Variable minimap : nx.Graph Z.

Lemma append_loop name incident :
  ∀ room_map room_map' node_info,
    dict_get name room_map = Some node_info →
    for_each (append_step name ids) room_map incident = Ok room_map' →
    room_map'
    = dict_set name
        {| node_id := node_id node_info;
           edges := edges node_info ++ finals ids incident.*2 |}
        room_map.
Proof.
  induction incident as [|[u v] incident IH];
    intros room_map room_map' node_info Hget Hrun.
  - injection Hrun as <-. csimpl. rewrite app_nil_r.
    symmetry. apply dict_set_id. by destruct node_info.
  - cbn [for_each] in Hrun. apply bind_Ok in Hrun as (rm1 & Hstep & Hrun).
    unfold append_step, dict_item in Hstep. rewrite Hget in Hstep.
    cbn [bind] in Hstep. simpl in Hstep.
    destruct (dict_get v ids) as [new|] eqn:Hnew; [|done].
    injection Hstep as <-.
    rewrite (IH _ _ _ (dict_get_set_eq _ _ _) Hrun).
    rewrite dict_set_set. simpl. unfold finals at 2. csimpl.
    rewrite Hnew. fold (finals ids incident.*2). by rewrite <- app_assoc.
Qed.

Lemma edges_step_Ok_inv room_map name origin room_map' node_info :
  dict_get name room_map = Some node_info →
  edges_step nodes ids minimap room_map (name, origin) = Ok room_map' →
  ∃ old, dict_get name nodes = Some old
    ∧ is_Some (dict_get old minimap)
    ∧ room_map'
      = dict_set name
          {| node_id := node_id node_info;
             edges := edges node_info ++ finals ids (neighbours minimap old) |}
          room_map.
Proof.
  intros Hget Hstep. unfold edges_step, nx.edges, dict_item in Hstep.
  destruct (dict_get name nodes) as [old|]; [|done]. cbn [bind] in Hstep.
  destruct (dict_get old minimap) as [nbrs|] eqn:Hnbrs; [|done].
  cbn [bind] in Hstep. exists old. split_and!; [done|by eauto|].
  rewrite (append_loop _ _ _ _ _ Hget Hstep). do 3 f_equal.
  unfold neighbours. rewrite Hnbrs. simpl.
  rewrite <- list_fmap_compose. f_equal. apply list_fmap_id.
Qed.

(** The second loop fills in every room's neighbour list, in place. *)
Lemma edges_loop_room_map todo :
  ∀ done room_map',
    NoDup (keys (done ++ todo)) →
    for_each (edges_step nodes ids minimap)
      ((finished nodes width ids minimap <$> done) ++ (numbered width <$> todo)) todo
    = Ok room_map' →
    room_map' = finished nodes width ids minimap <$> (done ++ todo).
Proof.
  induction todo as [|[name origin] todo IH]; intros done room_map' Hnd Hrun.
  - injection Hrun as <-. by rewrite !app_nil_r.
  - cbn [for_each] in Hrun. apply bind_Ok in Hrun as (rm1 & Hstep & Hrun).
    assert (name ∉ keys (finished nodes width ids minimap <$> done)) as Hfresh.
    { rewrite keys_fmap_same by done. unfold keys in *.
      rewrite fmap_app in Hnd. apply NoDup_app in Hnd as (_ & Hdisj & _).
      intros Hin. apply (Hdisj name); [done|left]. }
    assert (dict_get name
              ((finished nodes width ids minimap <$> done) ++ (numbered width <$> (name, origin) :: todo))
            = Some {| node_id := Some (cell width origin); edges := [] |})
      as Hget.
    { rewrite dict_get_app_fresh by done. csimpl.
      unfold numbered at 1. simpl. by rewrite decide_True. }
    apply (edges_step_Ok_inv _ _ _ _ _ Hget) in Hstep as (old & Hold & _ & Hrm1).
    subst rm1. csimpl in Hrun. unfold numbered at 1 in Hrun. simpl in Hrun.
    rewrite dict_set_app_fresh in Hrun by done.
    specialize (IH (done ++ [(name, origin)]) room_map').
    rewrite <- !app_assoc in IH. simpl in IH. apply IH; [done|].
    rewrite fmap_app, <- app_assoc. csimpl.
    unfold finished at 2. simpl. by rewrite Hold.
Qed.

(** The second loop only returns when every room with an origin has a
    provisional id that is a node of the graph. *)
Lemma edges_loop_nodes todo room_map room_map' :
  (∀ name, name ∈ keys todo → is_Some (dict_get name room_map)) →
  for_each (edges_step nodes ids minimap) room_map todo = Ok room_map' →
  ∀ name, name ∈ keys todo →
    ∃ old, dict_get name nodes = Some old ∧ is_Some (dict_get old minimap).
Proof.
  revert room_map. induction todo as [|[name origin] todo IH];
    intros room_map Hkeys Hrun name' Hin.
  - by apply elem_of_nil in Hin.
  - cbn [for_each] in Hrun. apply bind_Ok in Hrun as (rm1 & Hstep & Hrun).
    destruct (Hkeys name) as [info Hinfo]; [left|].
    apply (edges_step_Ok_inv _ _ _ _ _ Hinfo) in Hstep
      as (old & Hold & Hnode & Hrm1).
    subst rm1. unfold keys in Hin. csimpl in Hin.
    apply elem_of_cons in Hin as [->|Hin]; [by eauto|].
    eapply IH; [|done..]. intros n Hn.
    destruct (decide (name = n)) as [->|Hne].
    + rewrite dict_get_set_eq. eauto.
    + rewrite dict_get_set_ne by done. apply Hkeys. by right.
Qed.
End edges_loop.

Section layout_facts.
Import Map.

Lemma zip_snd_inj {A B : Type} (l : list A) (k : list B) a1 a2 b :
  NoDup k → (a1, b) ∈ zip l k → (a2, b) ∈ zip l k → a1 = a2.
Proof.
  revert k. induction l as [|a l IH]; intros [|b' k] Hnd H1 H2; simpl in *;
    try by apply elem_of_nil in H1.
  apply NoDup_cons in Hnd as [Hb' Hnd].
  apply elem_of_cons in H1 as [H1|H1];
    apply elem_of_cons in H2 as [H2|H2]; simplify_eq.
  - done.
  - exfalso. apply Hb'. by eapply elem_of_zip_r.
  - exfalso. apply Hb'. by eapply elem_of_zip_r.
  - by eapply IH.
Qed.

(** Different rooms have different provisional ids. *)
Lemma nodes_of_inj rooms n1 n2 u :
  dict_get n1 (nodes_of rooms) = Some u →
  dict_get n2 (nodes_of rooms) = Some u → n1 = n2.
Proof.
  unfold nodes_of. intros H1%dict_get_of_items_elem H2%dict_get_of_items_elem.
  eapply zip_snd_inj; [apply NoDup_seqZ|done..].
Qed.

Lemma keys_shift_x dx origins : keys (shift_x dx origins) = keys origins.
Proof.
  unfold shift_x. destruct (dx <? 0); [|done].
  apply keys_fmap_same. by intros [].
Qed.

Lemma keys_shift_y dy origins : keys (shift_y dy origins) = keys origins.
Proof.
  unfold shift_y. destruct (dy <? 0); [|done].
  apply keys_fmap_same. by intros [].
Qed.

(** Everything [layout] has established when it returns. *)
Lemma layout_Ok_inv rooms m :
  layout rooms = Ok m →
  ∃ raw minimap left top right ids,
    _construct_minimap (minimap0 rooms) (nodes_of rooms) rooms
    = Ok (raw, minimap)
    ∧ py_min x (values raw) = Ok left
    ∧ py_min y (values raw) = Ok top
    ∧ origins m = shift_y (y top) (shift_x (x left) raw)
    ∧ py_max x (values (origins m)) = Ok right
    ∧ NoDup (keys (origins m))
    ∧ room_map m
      = finished (nodes_of rooms) (x right + 1) ids minimap <$> origins m
    ∧ (∀ name origin old,
         (name, origin) ∈ origins m →
         dict_get name (nodes_of rooms) = Some old →
         dict_get old ids = Some (cell (x right + 1) origin))
    ∧ (∀ old e,
         dict_get old ids = Some e →
         ∃ name origin,
           (name, origin) ∈ origins m
           ∧ dict_get name (nodes_of rooms) = Some old
           ∧ e = cell (x right + 1) origin)
    ∧ (∀ name,
         name ∈ keys (origins m) →
         ∃ old, dict_get name (nodes_of rooms) = Some old
                ∧ is_Some (dict_get old minimap)).
Proof.
  rewrite layout_unfold. intros Hrun.
  apply bind_Ok in Hrun as ([raw minimap] & Hconstruct & Hrun).
  apply bind_Ok in Hrun as (left & Hleft & Hrun).
  apply bind_Ok in Hrun as (top & Htop & Hrun).
  cbn zeta in Hrun. set (origins := shift_y _ _) in Hrun.
  apply bind_Ok in Hrun as (right & Hright & Hrun).
  apply bind_Ok in Hrun as ([ids rm1] & Hnumber & Hrun).
  apply bind_Ok in Hrun as (rm2 & Hedges & Hrun).
  injection Hrun as <-. cbn [Map.origins Map.room_map].
  assert (NoDup (keys origins)) as Hnd.
  { subst origins. rewrite keys_shift_y, keys_shift_x.
    rewrite construct_unfold in Hconstruct.
    apply bind_Ok in Hconstruct as ([o e] & Hloop & Hc). injection Hc as <- _.
    by apply rooms_loop_sound in Hloop as (? & _). }
  pose proof Hnumber as Hrm1. rewrite blank_unnumbered in Hrm1 by done.
  apply (number_loop_room_map _ _ _ []) in Hrm1; [|done]. simpl in Hrm1.
  subst rm1. pose proof Hedges as Hrm2.
  apply (edges_loop_room_map _ _ _ _ _ []) in Hrm2; [|done]. simpl in Hrm2.
  subst rm2.
  exists raw, minimap, left, top, right, ids. split_and!; try done.
  - intros name origin old Hin Hold.
    eapply number_loop_ids; [apply nodes_of_inj|done..].
  - intros old e Hget.
    destruct (number_loop_ids_inv _ _ _ _ _ _ _ _ _ Hnumber Hget)
      as [?|(name & origin & ? & ? & ?)]; [done|].
    by exists name, origin.
  - eapply edges_loop_nodes; [|done].
    intros name Hname. apply dict_get_is_Some_keys.
    by rewrite keys_fmap_same.
Qed.
End layout_facts.

(** ** The minimap builder *)

Section builder.
Import Map.

Lemma init_Ok_layout rooms player m :
  __init__ rooms player = Ok m → layout rooms = Ok m.
Proof.
  unfold __init__. intros Hinit.
  apply bind_Ok in Hinit as (self & Hlayout & Hinit).
  apply bind_Ok in Hinit as (d & _ & Hinit). by injection Hinit as <-.
Qed.

Lemma raw_origins_construct rooms raw :
  raw_origins rooms = Ok raw ↔
  ∃ minimap,
    _construct_minimap (minimap0 rooms) (nodes_of rooms) rooms
    = Ok (raw, minimap).
Proof.
  unfold raw_origins. split.
  - intros ([raw' minimap] & Hc & [= <-])%bind_Ok. by exists minimap.
  - intros (minimap & ->). done.
Qed.

Lemma values_shift dx dy origins :
  values (shift_y dy (shift_x dx origins)) = shifted dx dy <$> values origins.
Proof.
  unfold values, shift_y, shift_x, shifted.
  destruct (dx <? 0), (dy <? 0); rewrite <- ?list_fmap_compose;
    apply list_fmap_ext; intros _ [name [px py]] _; simpl; f_equal; lia.
Qed.
End builder.

(** The builder on the sample worlds. *)
Example corridor_layout :
  Map.layout Samples.corridor
  = Ok {| Map.origins :=
            [("A", {| Map.x := 0; Map.y := 0 |});
             ("B", {| Map.x := 1; Map.y := 0 |})];
          Map.room_map :=
            [("A", {| Map.node_id := Some 0; Map.edges := [1] |});
             ("B", {| Map.node_id := Some 1; Map.edges := [0] |})] |}.
Proof. reflexivity. Qed.

Example stairs_layout :
  raw_origins Samples.stairs
  = Ok [("A", {| Map.x := 0; Map.y := 0 |});
        ("B", {| Map.x := 0; Map.y := -1 |})]
  ∧ Map.origins <$> (match Map.layout Samples.stairs with
                     | Ok m => Some m
                     | Raise _ => None
                     end)
    = Some [("A", {| Map.x := 0; Map.y := 1 |});
            ("B", {| Map.x := 0; Map.y := 0 |})].
Proof. split; reflexivity. Qed.

Example annex_layout :
  keys <$> (match Map.layout Samples.annex with
            | Ok m => Some (Map.origins m)
            | Raise _ => None
            end)
  = Some ["A"; "B"].
Proof. reflexivity. Qed.

Example ghost_layout : Map.layout Samples.ghost = Raise KeyError.
Proof. reflexivity. Qed.

(** C1, as the code has it: a directional edge from a room [name] into a
    room [dest] always sets the origin of [dest] to the origin of [name]
    moved one unit in the direction of the edge, whether [dest] had an
    origin before or not, so the last edge into a room decides its origin.
    When [dest] is another room, the source keeps its origin, which is
    (0,0) when it had none; an exit of a room to itself moves the room's
    own origin.  The origin of no other room changes. *)
Theorem later_edge_sets_origin
    (room : Room.t) (direction : string) (origins : list (string * Map.Point))
    (name : string) (nodes : list (string * Z)) (dest : string) (u v : Z) :
  py_getitem (Room.paths room) direction = Ok (VStr dest) →
  dest ≠ "" →
  dict_get name nodes = Some u →
  dict_get dest nodes = Some v →
  ∃ origins',
    Map._adjust_minimap_origins room direction origins name nodes
    = Ok (origins', Some (u, v))
    ∧ dict_get dest origins' = Some (moved direction (source_of name origins))
    ∧ (name ≠ dest → dict_get name origins' = Some (source_of name origins))
    ∧ (∀ other, other ≠ name → other ≠ dest →
         dict_get other origins' = dict_get other origins).
Proof.
  intros Hexit Hdest Hu Hv. eexists. split; [by apply adjust_exit|].
  split_and!.
  - rewrite dict_get_placed. by rewrite decide_True.
  - intros Hne. rewrite dict_get_placed.
    by rewrite decide_False, decide_True.
  - intros other Hn Hd. rewrite dict_get_placed. by rewrite !decide_False.
Qed.

(** C1 fails as stated: room C has the origin (1,0) from the edge out of
    room A, and the later edge down from room B moves it to (0,1), where
    the builder leaves it. *)
Lemma later_edge_moves_origin :
  let nodes := [("A", 0); ("B", 1); ("C", 2)] in
  let before :=
    [("A", {| Map.x := 0; Map.y := 0 |}); ("C", {| Map.x := 1; Map.y := 0 |})] in
  Map._adjust_minimap_origins
    (Samples.room VNone VNone VNone (VStr "C")) "right" [] "A" nodes
  = Ok (before, Some (0, 2))
  ∧ dict_get "C" before = Some {| Map.x := 1; Map.y := 0 |}
  ∧ ∃ after,
      Map._adjust_minimap_origins
        (Samples.room VNone (VStr "C") VNone VNone) "down" before "B" nodes
      = Ok (after, Some (1, 2))
      ∧ dict_get "C" after = Some {| Map.x := 0; Map.y := 1 |}
      ∧ dict_get "C" after ≠ dict_get "C" before
      ∧ raw_origins Samples.fork = Ok after.
Proof.
  split_and!; [reflexivity..|].
  eexists. split_and!; [reflexivity..|done|reflexivity].
Qed.

(** C2, as the code has it: after the normalisation pass no assigned
    coordinate is negative, and the least x (and the least y) is the least
    raw x (the least raw y) when that is positive, and 0 otherwise. *)
Theorem normalized_origins_nonnegative
    (rooms : list (string * Room.t)) (player : Player.t) (m : Map.t) :
  Map.__init__ rooms player = Ok m →
  ∃ raw left top left' top',
    raw_origins rooms = Ok raw
    ∧ py_min Map.x (values raw) = Ok left
    ∧ py_min Map.y (values raw) = Ok top
    ∧ py_min Map.x (values (Map.origins m)) = Ok left'
    ∧ py_min Map.y (values (Map.origins m)) = Ok top'
    ∧ Map.x left' = Z.max 0 (Map.x left)
    ∧ Map.y top' = Z.max 0 (Map.y top)
    ∧ ∀ p, p ∈ values (Map.origins m) → 0 ≤ Map.x p ∧ 0 ≤ Map.y p.
Proof.
  intros Hinit%init_Ok_layout.
  apply layout_Ok_inv in Hinit
    as (raw & minimap & left & top & right & ids
        & Hraw & Hleft & Htop & Horigins & _).
  pose proof (py_min_Ok_inv _ _ _ Hleft) as [Hleft_in Hleft_min].
  pose proof (py_min_Ok_inv _ _ _ Htop) as [Htop_in Htop_min].
  assert (values (Map.origins m)
          = shifted (Map.x left) (Map.y top) <$> values raw) as Hvalues
    by (rewrite Horigins; apply values_shift).
  assert (values (Map.origins m) ≠ []) as Hne.
  { rewrite Hvalues. intros Hnil%fmap_nil_inv.
    rewrite Hnil in Hleft_in. by apply elem_of_nil in Hleft_in. }
  destruct (py_min_nonempty Map.x _ Hne) as [left' Hleft'].
  destruct (py_min_nonempty Map.y _ Hne) as [top' Htop'].
  exists raw, left, top, left', top'.
  split_and!; try done; [by apply raw_origins_construct; eauto|..].
  - apply py_min_Ok_inv in Hleft' as [Hin Hmin].
    rewrite Hvalues in Hin, Hmin.
    apply list_elem_of_fmap in Hin as (p & -> & Hp).
    specialize (Hmin (shifted (Map.x left) (Map.y top) left)
                  (list_elem_of_fmap_2 _ _ _ Hleft_in)).
    specialize (Hleft_min p Hp). unfold shifted in *. simpl in *.
    destruct (Z.ltb_spec (Map.x left) 0); lia.
  - apply py_min_Ok_inv in Htop' as [Hin Hmin].
    rewrite Hvalues in Hin, Hmin.
    apply list_elem_of_fmap in Hin as (p & -> & Hp).
    specialize (Hmin (shifted (Map.x left) (Map.y top) top)
                  (list_elem_of_fmap_2 _ _ _ Htop_in)).
    specialize (Htop_min p Hp). unfold shifted in *. simpl in *.
    destruct (Z.ltb_spec (Map.y top) 0); lia.
  - intros p Hp. rewrite Hvalues in Hp.
    apply list_elem_of_fmap in Hp as (q & -> & Hq).
    specialize (Hleft_min q Hq). specialize (Htop_min q Hq).
    unfold shifted. simpl.
    destruct (Z.ltb_spec (Map.x left) 0), (Z.ltb_spec (Map.y top) 0); lia.
Qed.

(** C2 fails as stated: for two rooms that each have the other on their
    right, the map is built and the least x of its origins is 1. *)
Lemma normalized_minimum_positive :
  ∃ m left,
    Map.__init__ Samples.ring (Samples.player_at "A") = Ok m
    ∧ Map.origins m
      = [("A", {| Map.x := 2; Map.y := 0 |});
         ("B", {| Map.x := 1; Map.y := 0 |})]
    ∧ py_min Map.x (values (Map.origins m)) = Ok left
    ∧ Map.x left = 1.
Proof. do 2 eexists. split_and!; reflexivity. Qed.

Lemma dict_get_finished nodes width ids minimap origins name :
  dict_get name (finished nodes width ids minimap <$> origins)
  = (fun origin => (finished nodes width ids minimap (name, origin)).2)
      <$> dict_get name origins.
Proof.
  apply (dict_get_fmap_value
           (fun k o => (finished nodes width ids minimap (k, o)).2)).
Qed.

(** C3: once the map is built, every room with an origin is recorded with
    the node id x + y * width of its normalised origin, where width is the
    greatest normalised x plus 1; the rooms recorded are the rooms with an
    origin. *)
Theorem node_id_row_major
    (rooms : list (string * Room.t)) (player : Player.t) (m : Map.t) :
  Map.__init__ rooms player = Ok m →
  ∃ right,
    py_max Map.x (values (Map.origins m)) = Ok right
    ∧ keys (Map.room_map m) = keys (Map.origins m)
    ∧ ∀ name origin,
        dict_get name (Map.origins m) = Some origin →
        ∃ node_info,
          dict_get name (Map.room_map m) = Some node_info
          ∧ Map.node_id node_info
            = Some (Map.x origin + Map.y origin * (Map.x right + 1)).
Proof.
  intros Hinit%init_Ok_layout.
  apply layout_Ok_inv in Hinit
    as (raw & minimap & left & top & right & ids
        & _ & _ & _ & _ & Hright & _ & Hroom_map & _).
  exists right. split_and!; [done|..].
  - rewrite Hroom_map. by apply keys_fmap_same.
  - intros name origin Hget. rewrite Hroom_map, dict_get_finished, Hget.
    eexists. split; reflexivity.
Qed.

Lemma nbr_neighbours minimap u v : nbr minimap u v ↔ v ∈ neighbours minimap u.
Proof.
  unfold nbr, neighbours. destruct (dict_get u minimap) as [ns|]; simpl.
  - split; [by intros (? & [= <-] & ?)|by eauto].
  - split; [by intros (? & ? & ?)|]. intros Hx. by apply elem_of_nil in Hx.
Qed.



(** C5, as the code has it: an exit that is null gives no edge, and every
    edge that [_construct_minimap] adds to the graph comes from an exit
    that names a room.  An exit that names its own room is such an exit: it
    gives the edge from the room's node to itself. *)
Theorem exits_and_edges
    (minimap : nx.Graph Z) (nodes : list (string * Z))
    (rooms : list (string * Room.t))
    (origins : list (string * Map.Point)) (g : nx.Graph Z) :
  Map._construct_minimap minimap nodes rooms = Ok (origins, g) →
  (∀ name room direction exit origins0,
     (name, room) ∈ rooms → direction ∈ directions →
     py_getitem (Room.paths room) direction = Ok exit →
     truthy exit = false →
     Map._adjust_minimap_origins room direction origins0 name nodes
     = Ok (origins0, None))
  ∧ (∀ u v,
       nbr g u v →
       nbr minimap u v
       ∨ from_exit nodes rooms origins u v
       ∨ from_exit nodes rooms origins v u)
  ∧ (∀ name room direction,
       (name, room) ∈ rooms → direction ∈ directions →
       py_getitem (Room.paths room) direction = Ok (VStr name) →
       name ≠ "" →
       ∃ u, dict_get name nodes = Some u ∧ nbr g u u).
Proof.
  rewrite construct_unfold. intros ([origins' recorded] & Hloop & Hg)%bind_Ok.
  injection Hg as -> <-.
  pose proof (rooms_loop_sound _ _ _ Hloop) as (_ & _ & Hsound).
  simpl in Hsound. split_and!.
  - intros name room direction exit origins0 _ _ Hexit Hfalse.
    by eapply adjust_no_exit.
  - intros u v [?|[Huv|Hvu]]%nbr_add_edges_from; [by left|right..].
    + left. apply Hsound. apply list_elem_of_omap in Huv as ([e|] & ? & He);
        simpl in He; by simplify_eq.
    + right. apply Hsound. apply list_elem_of_omap in Hvu as ([e|] & ? & He);
        simpl in He; by simplify_eq.
  - intros name room direction Hroom Hdir Hexit Hname.
    destruct (rooms_loop_records _ _ _ _ _ _ _ _ Hloop Hroom Hdir Hexit)
      as (dest & u & v & [= <-] & _ & Hu & Hv & Hedge & _).
    { simpl. by apply negb_true_iff, String.eqb_neq. }
    rewrite Hu in Hv. injection Hv as <-.
    exists u. split; [done|]. apply nbr_add_edges_from. right; left.
    apply list_elem_of_omap. by exists (Some (u, u)).
Qed.

(** C5 fails as stated: one room whose right exit is the room itself gets
    an edge from its node to itself, and its own node id in its neighbour
    list. *)
Lemma self_exit_makes_edge :
  Map._adjust_minimap_origins
    (Samples.room VNone VNone VNone (VStr "A")) "right" [] "A" [("A", 0)]
  = Ok ([("A", {| Map.x := 1; Map.y := 0 |})], Some (0, 0))
  ∧ Map._construct_minimap [(0, [])] [("A", 0)] Samples.mirror
    = Ok ([("A", {| Map.x := 1; Map.y := 0 |})], [(0, [0])])
  ∧ Map.__init__ Samples.mirror (Samples.player_at "A")
    = Ok {| Map.origins := [("A", {| Map.x := 1; Map.y := 0 |})];
            Map.room_map :=
              [("A", {| Map.node_id := Some 1; Map.edges := [1] |})] |}.
Proof. split_and!; reflexivity. Qed.

(** ** The layout returns whenever the reductions do *)

Section layout_total.
Import Map.

Lemma number_loop_total nodes width todo :
  ∀ ids room_map,
    (∀ name, name ∈ keys todo →
       is_Some (dict_get name nodes) ∧ is_Some (dict_get name room_map)) →
    ∃ s', for_each (number_step nodes width) (ids, room_map) todo = Ok s'.
Proof.
  induction todo as [|[name origin] todo IH]; intros ids room_map Hkeys.
  - by eexists.
  - destruct (Hkeys name) as [[old Hold] [info Hinfo]]; [left|].
    cbn [for_each]. unfold number_step at 1, dict_item.
    rewrite Hold, Hinfo. cbn [bind]. apply IH. intros n Hn.
    destruct (Hkeys n) as [? Hrm]; [by right|]. split; [done|].
    destruct (decide (name = n)) as [->|Hne].
    + rewrite dict_get_set_eq. eauto.
    + by rewrite dict_get_set_ne.
Qed.

Lemma append_loop_total name ids incident :
  ∀ room_map,
    is_Some (dict_get name room_map) →
    (∀ e, e ∈ incident → is_Some (dict_get e.2 ids)) →
    ∃ room_map', for_each (append_step name ids) room_map incident = Ok room_map'.
Proof.
  induction incident as [|e incident IH]; intros room_map [info Hinfo] Hids.
  - by eexists.
  - destruct (Hids e) as [new Hnew]; [left|].
    cbn [for_each]. unfold append_step at 1, dict_item.
    rewrite Hinfo, Hnew. cbn [bind]. apply IH.
    + rewrite dict_get_set_eq. eauto.
    + intros e' He'. apply Hids. by right.
Qed.

Lemma edges_loop_total nodes ids minimap todo :
  ∀ room_map,
    (∀ name, name ∈ keys todo →
       is_Some (dict_get name room_map)
       ∧ ∃ old, dict_get name nodes = Some old
           ∧ is_Some (dict_get old minimap)
           ∧ ∀ v, v ∈ neighbours minimap old → is_Some (dict_get v ids)) →
    ∃ room_map',
      for_each (edges_step nodes ids minimap) room_map todo = Ok room_map'.
Proof.
  induction todo as [|[name origin] todo IH]; intros room_map Hkeys.
  - by eexists.
  - destruct (Hkeys name) as ([info Hinfo] & old & Hold & [nbrs Hnbrs] & Hids);
      [left|].
    cbn [for_each]. unfold edges_step at 1, nx.edges, dict_item.
    rewrite Hold. cbn [bind]. rewrite Hnbrs. cbn [bind].
    destruct (append_loop_total name ids ((fun v => (old, v)) <$> nbrs) room_map)
      as [rm1 Hrm1]; [by eauto| |].
    { intros e (v & -> & Hv)%list_elem_of_fmap. simpl. apply Hids.
      unfold neighbours. by rewrite Hnbrs. }
    rewrite Hrm1. cbn [bind]. apply IH. intros n Hn.
    destruct (Hkeys n) as [[info_n Hinfo_n] Hrest]; [by right|].
    split; [|done].
    rewrite (append_loop _ _ _ _ _ _ Hinfo Hrm1).
    destruct (decide (name = n)) as [->|Hne].
    + rewrite dict_get_set_eq. eauto.
    + rewrite dict_get_set_ne by done. eauto.
Qed.

Lemma values_nodes_minimap0 rooms name old :
  dict_get name (nodes_of rooms) = Some old →
  old ∈ keys (minimap0 rooms).
Proof.
  intros Hold%dict_get_Some_elem. unfold minimap0.
  rewrite keys_add_nodes_from. apply fold_stored_elem. left.
  apply list_elem_of_fmap. by exists (name, old).
Qed.

(** When the rooms are traversed without an exception and leave at least
    one origin, the layout is completed. *)
Lemma layout_total rooms raw minimap :
  _construct_minimap (minimap0 rooms) (nodes_of rooms) rooms
  = Ok (raw, minimap) →
  raw ≠ [] →
  ∃ m, layout rooms = Ok m.
Proof.
  intros Hconstruct Hne. rewrite layout_unfold, Hconstruct. cbn [bind].
  rewrite construct_unfold in Hconstruct.
  apply bind_Ok in Hconstruct as ([raw' recorded] & Hloop & Hc).
  injection Hc as -> <-.
  pose proof (rooms_loop_sound _ _ _ Hloop) as (Hnd & Hnodes & Hsound).
  simpl in Hnd, Hnodes, Hsound.
  assert (values raw ≠ []) as Hvalues
    by (intros Hnil%fmap_nil_inv; done).
  destruct (py_min_nonempty x _ Hvalues) as [left ->].
  destruct (py_min_nonempty y _ Hvalues) as [top ->]. cbn [bind].
  set (origins := shift_y (y top) (shift_x (x left) raw)).
  assert (keys origins = keys raw) as Hkeys
    by (subst origins; by rewrite keys_shift_y, keys_shift_x).
  assert (values origins ≠ []) as Hvalues'.
  { subst origins. rewrite values_shift. by intros ?%fmap_nil_inv. }
  destruct (py_max_nonempty x _ Hvalues') as [right ->]. cbn [bind].
  rewrite <- Hkeys in Hnd, Hnodes.
  destruct (number_loop_total (nodes_of rooms) (x right + 1) origins
              [] (blank origins)) as [[ids rm1] Hnumber].
  { intros name Hname. split; [by apply dict_get_is_Some_keys, Hnodes|].
    apply dict_get_is_Some_keys. rewrite blank_unnumbered by done.
    by rewrite keys_fmap_same. }
  rewrite Hnumber. cbn [bind].
  pose proof Hnumber as Hrm1. rewrite blank_unnumbered in Hrm1 by done.
  apply (number_loop_room_map _ _ _ []) in Hrm1; [|done]. simpl in Hrm1.
  set (g := nx.add_edges_from (omap id recorded) (minimap0 rooms)).
  destruct (edges_loop_total (nodes_of rooms) ids g origins rm1)
    as [rm2 Hedges]; [|rewrite Hedges; by eexists].
  intros name Hname. split.
  { apply dict_get_is_Some_keys. subst rm1. by rewrite keys_fmap_same. }
  destruct (proj2 (dict_get_is_Some_keys name (nodes_of rooms)) (Hnodes _ Hname))
    as [old Hold].
  exists old. split_and!; [done|..].
  - apply dict_get_is_Some_keys, keys_add_edges_from_mono.
    by eapply values_nodes_minimap0.
  - intros v Hv%nbr_neighbours.
    assert (∃ n, n ∈ keys origins ∧ dict_get n (nodes_of rooms) = Some v)
      as (n & Hn & Hnv).
    { apply nbr_add_edges_from in Hv as [Hv|[Hv|Hv]].
      - unfold minimap0 in Hv. apply nbr_add_nodes_from in Hv.
        by apply nbr_empty in Hv.
      - apply list_elem_of_omap in Hv as ([e|] & He & Hid);
          simpl in Hid; simplify_eq.
        destruct (Hsound _ _ He)
          as (n1 & r & d & n2 & _ & _ & _ & _ & _ & ? & _ & ?).
        exists n2. by rewrite Hkeys.
      - apply list_elem_of_omap in Hv as ([e|] & He & Hid);
          simpl in Hid; simplify_eq.
        destruct (Hsound _ _ He)
          as (n1 & r & d & n2 & _ & _ & _ & _ & ? & _ & ? & _).
        exists n1. by rewrite Hkeys. }
    apply dict_get_is_Some_keys in Hn as [origin Horigin].
    exists (cell (x right + 1) origin).
    eapply number_loop_ids;
      [apply nodes_of_inj|done|done|by apply dict_get_Some_elem|done].
Qed.
End layout_total.

Lemma rooms_loop_no_exit nodes rooms s' :
  (∀ name room direction exit,
     (name, room) ∈ rooms → direction ∈ directions →
     py_getitem (Room.paths room) direction = Ok exit → truthy exit = false) →
  for_each (room_step nodes) ([], []) rooms = Ok s' → s'.1 = [].
Proof.
  intros Hnull. apply (for_each_inv (fun s => s.1 = [])); [|done].
  intros [origins recorded] [name room] t Hroom Hs. unfold room_step.
  apply (for_each_inv (fun s => s.1 = [])); [|done].
  intros s direction s2 Hdir Hs1
    (exit & Hexit & [[_ ->]|(dest & ? & ? & -> & Hdest & _)])
      %direction_step_Ok_inv; [done|].
  pose proof (Hnull _ _ _ _ Hroom Hdir Hexit) as Hfalse. simpl in Hfalse.
  by apply negb_false_iff, String.eqb_eq in Hfalse.
Qed.

(** C6: the traversal of the rooms leaves no origin exactly when every
    exit of every room is null; the map is then not built: the first
    reduction over the origins raises [ValueError].  When at least one
    origin is left, the three reductions return and the layout is
    completed. *)
Theorem empty_origins_fail
    (rooms : list (string * Room.t)) (raw : list (string * Map.Point)) :
  raw_origins rooms = Ok raw →
  (raw = [] ↔
   ∀ name room direction exit,
     (name, room) ∈ rooms → direction ∈ directions →
     py_getitem (Room.paths room) direction = Ok exit → truthy exit = false)
  ∧ (raw = [] →
     py_min Map.x (values raw) = Raise (ValueError EmptySequence)
     ∧ Map.layout rooms = Raise (ValueError EmptySequence)
     ∧ ∀ player,
         Map.__init__ rooms player = Raise (ValueError EmptySequence))
  ∧ (raw ≠ [] →
     ∃ left top right m,
       py_min Map.x (values raw) = Ok left
       ∧ py_min Map.y (values raw) = Ok top
       ∧ Map.layout rooms = Ok m
       ∧ py_max Map.x (values (Map.origins m)) = Ok right).
Proof.
  intros (minimap & Hconstruct)%raw_origins_construct. split_and!.
  - rewrite construct_unfold in Hconstruct.
    apply bind_Ok in Hconstruct as ([raw' recorded] & Hloop & Hc).
    injection Hc as -> _. split.
    + intros -> name room direction exit Hroom Hdir Hexit.
      destruct (truthy exit) eqn:Htruthy; [|done].
      destruct (rooms_loop_records _ _ _ _ _ _ _ _ Hloop Hroom Hdir Hexit
                  Htruthy) as (? & ? & ? & _ & _ & _ & _ & _ & Hname & _).
      by apply elem_of_nil in Hname.
    + intros Hnull. by apply (rooms_loop_no_exit _ _ _ Hnull Hloop).
  - intros ->. split_and!; [done| |].
    + rewrite layout_unfold, Hconstruct. done.
    + intros player. unfold Map.__init__.
      rewrite layout_unfold, Hconstruct. done.
  - intros Hne. destruct (layout_total _ _ _ Hconstruct Hne) as [m Hm].
    pose proof Hm as Hinv.
    apply layout_Ok_inv in Hinv
      as (raw' & minimap' & left & top & right & ids
          & Hraw & Hleft & Htop & _ & Hright & _).
    rewrite Hconstruct in Hraw. injection Hraw as <- <-.
    by exists left, top, right, m.
Qed.

(** ** The validator *)

Section validator.
Import saveload.

Lemma path_dangling rooms name direction d ghost out :
  dict_get name rooms = Some (VDict d) →
  dict_get direction d = Some (VStr ghost) →
  dict_mem ghost rooms = false →
  _path rooms name direction out
  = (out ++ [dangling_line name direction], Ok ()).
Proof.
  intros Hroom Hexit Hghost. unfold _path, dict_item. rewrite Hroom.
  assert (dict_mem direction d = true) as Hmem
    by (unfold dict_mem; by rewrite Hexit).
  unfold py_in. rewrite Hmem.
  unfold py_getitem, dict_item. rewrite Hexit.
  by rewrite Hghost.
Qed.

(** A check of a mapping with an exit that can be looked up prints one
    line and returns. *)
Lemma path_prints rooms name direction d out :
  dict_get name rooms = Some (VDict d) →
  (∀ exit, dict_get direction d = Some exit → hashable exit = true) →
  ∃ line, _path rooms name direction out = (out ++ [line], Ok ()).
Proof.
  intros Hroom Hhash. unfold _path, dict_item. rewrite Hroom.
  unfold py_in, dict_mem, py_getitem, dict_item.
  destruct (dict_get direction d) as [exit|] eqn:Hexit; [|by eexists].
  specialize (Hhash exit eq_refl).
  destruct exit as [| | |other| |]; try discriminate Hhash; try by eexists.
  destruct (negb _); by eexists.
Qed.

(** A loop whose iterations all return prints their lines one after the
    other. *)
Lemma io_for_lines {A : Type} (body : A → io unit) (line : A → list string)
    (l : list A) :
  (∀ a out, a ∈ l → body a out = (out ++ line a, Ok ())) →
  ∀ out, io_for body l out = (out ++ mjoin (line <$> l), Ok ()).
Proof.
  intros Hbody. induction l as [|a l IH]; intros out; csimpl.
  - by rewrite app_nil_r.
  - unfold io_bind. rewrite Hbody by left. rewrite IH.
    + by rewrite app_assoc.
    + intros b o Hb. apply Hbody. by right.
Qed.

Lemma path_printed rooms name direction d out :
  dict_get name rooms = Some (VDict d) →
  (∀ exit, dict_get direction d = Some exit → hashable exit = true) →
  _path rooms name direction out
  = (out ++ printed rooms name direction, Ok ())
  ∧ length (printed rooms name direction) = 1%nat.
Proof.
  intros Hroom Hhash. unfold printed.
  destruct (path_prints rooms name direction d [] Hroom Hhash) as [line Hnil].
  destruct (path_prints rooms name direction d out Hroom Hhash) as [line' Hout].
  rewrite Hnil, Hout. simpl. split; [|done].
  revert Hnil Hout. unfold _path, dict_item. rewrite Hroom.
  destruct (py_in direction (VDict d)) as [[]|]; [|unfold print..];
    [|intros; by simplify_eq|done].
  destruct (py_getitem (VDict d) direction) as [[| | |other| |]|];
    try destruct (negb _); unfold print, raise; intros; by simplify_eq.
Qed.

Lemma checkable_lookup (rooms : list (string * value)) (name : string) :
  (∀ n room, (n, room) ∈ rooms → checkable room) →
  name ∈ keys rooms →
  ∃ d, dict_get name rooms = Some (VDict d)
    ∧ ∀ direction exit,
        direction ∈ DIRECTIONS → dict_get direction d = Some exit →
        hashable exit = true.
Proof.
  intros Hwf [room Hroom]%dict_get_is_Some_keys.
  destruct (Hwf name room (dict_get_Some_elem _ _ _ Hroom)) as (d & -> & Hd).
  by exists d.
Qed.
End validator.

(** C8, as the code has it: the validator checks the exits north, south,
    east and west of every room.  When every room is a mapping whose
    checked exits can be looked up, the check loop returns having printed
    one line for each room and checked direction, and for every checked
    exit that names no room the line Going <direction> from <name> will
    lead to an error. is among them.  [_path] prints that line for a
    dangling exit in any direction it is called with, but the loop never
    calls it with up, down, left or right. *)
Theorem validator_reports_dangling_exits
    (rooms : list (string * value)) (out : list string) :
  (∀ name room, (name, room) ∈ rooms → checkable room) →
  (∃ lines,
     saveload.check_rooms rooms out = (out ++ lines, Ok ())
     ∧ length lines = (length rooms * 4)%nat
     ∧ ∀ name d direction ghost,
         dict_get name rooms = Some (VDict d) →
         direction ∈ saveload.DIRECTIONS →
         dict_get direction d = Some (VStr ghost) →
         dict_mem ghost rooms = false →
         dangling_line name direction ∈ lines)
  ∧ (∀ name d direction ghost out0,
       dict_get name rooms = Some (VDict d) →
       dict_get direction d = Some (VStr ghost) →
       dict_mem ghost rooms = false →
       saveload._path rooms name direction out0
       = (out0 ++ [dangling_line name direction], Ok ())).
Proof.
  intros Hwf. split; [|intros; by eapply path_dangling].
  set (inner name :=
         mjoin ((fun direction => printed rooms name direction)
                  <$> saveload.DIRECTIONS)).
  assert (∀ name o, name ∈ keys rooms →
            saveload.io_for (fun direction => saveload._path rooms name direction)
              saveload.DIRECTIONS o
            = (o ++ inner name, Ok ())
            ∧ length (inner name) = 4%nat) as Hinner.
  { intros name o Hname.
    destruct (checkable_lookup _ _ Hwf Hname) as (d & Hd & Hhash).
    split.
    - apply io_for_lines. intros direction o' Hdir.
      apply (path_printed rooms name direction d o' Hd). eauto.
    - assert (∀ direction, direction ∈ saveload.DIRECTIONS →
                length (printed rooms name direction) = 1%nat) as Hone.
      { intros direction Hdir.
        apply (path_printed rooms name direction d [] Hd). eauto. }
      unfold inner. simpl. rewrite !length_app.
      rewrite !Hone; [done|unfold saveload.DIRECTIONS..];
        repeat (first [by left | right]). }
  exists (mjoin (inner <$> keys rooms)). split_and!.
  - unfold saveload.check_rooms. apply io_for_lines.
    intros name o Hname. by apply Hinner.
  - assert (∀ names, (∀ n, n ∈ names → n ∈ keys rooms) →
              length (mjoin (inner <$> names)) = (length names * 4)%nat) as Hlen.
    { induction names as [|n names IH]; intros Hsub; csimpl; [done|].
      rewrite length_app, IH by (intros; apply Hsub; by right).
      by rewrite (proj2 (Hinner n [] (Hsub n (list_elem_of_here _ _)))). }
    unfold keys in *. rewrite Hlen by done. by rewrite length_fmap.
  - intros name d direction ghost Hd Hdir Hexit Hghost.
    apply list_elem_of_join. exists (inner name). split.
    + unfold inner. apply list_elem_of_join.
      exists (printed rooms name direction). split.
      * unfold printed. rewrite (path_dangling _ _ _ _ _ [] Hd Hexit Hghost).
        simpl. left.
      * by apply list_elem_of_fmap_2.
    + apply list_elem_of_fmap_2. apply dict_get_is_Some_keys. eauto.
Qed.

(** C8 fails as stated: for the one room A with the dangling exit right to
    Ghost, the loop prints that A has none of the four checked directions
    as a key, and not that going right from A leads to an error. *)
Lemma validator_skips_right :
  let rooms := [("A", VDict [("right", VStr "Ghost")])] in
  (saveload.check_rooms rooms []
   = (["A does not have north as a key.";
       "A does not have south as a key.";
       "A does not have east as a key.";
       "A does not have west as a key."], Ok ()))
  ∧ ("Going right from A will lead to an error."
     ∉ (saveload.check_rooms rooms []).1)
  ∧ (saveload._path rooms "A" "right" []
     = (["Going right from A will lead to an error."], Ok ())).
Proof.
  split_and!; [reflexivity| |reflexivity].
  intros Hin. vm_compute in Hin.
  repeat (apply elem_of_cons in Hin as [Hin|Hin]; [discriminate Hin|]).
  by apply elem_of_nil in Hin.
Qed.

(** ** The renderer *)

Section renderer.
Import Map.

Lemma layout_laid_out rooms m : layout rooms = Ok m → laid_out m.
Proof.
  intros Hlayout. apply layout_Ok_inv in Hlayout
    as (raw & minimap & left & top & right & ids
        & _ & _ & _ & _ & Hright & Hnd & Hroom_map & _ & Hids & _).
  assert (keys (room_map m) = keys (origins m)) as Hkeys
    by (rewrite Hroom_map; by apply keys_fmap_same).
  split; [..|done|].
  - intros Hnil. by rewrite Hnil in Hright.
  - by rewrite Hkeys.
  - intros room info e Hin He. rewrite Hroom_map in Hin.
    apply list_elem_of_fmap in Hin as ([name origin] & [= -> ->] & _).
    simpl in He. apply list_elem_of_omap in He as (v & _ & Hv).
    destruct (Hids _ _ Hv) as (name' & origin' & Hin' & _ & ->).
    unfold node_ids. rewrite Hroom_map, <- list_fmap_compose.
    apply list_elem_of_fmap. by exists (name', origin').
Qed.

Lemma keys_room_labels m :
  keys (room_labels m) = fold_left stored (node_ids m) [].
Proof.
  unfold room_labels, dict_of_items. rewrite keys_dict_of_items_stored.
  f_equal. unfold keys, node_ids. rewrite <- list_fmap_compose.
  apply list_fmap_ext. by intros _ [] _.
Qed.

Lemma values_room_labels_NoDup m :
  NoDup (keys (room_map m)) → NoDup (values (room_labels m)).
Proof.
  intros Hnd. apply NoDup_values_dict_of_items.
  unfold values, keys in *. rewrite <- list_fmap_compose.
  by rewrite (list_fmap_ext _ fst (room_map m)) by (by intros _ [] _).
Qed.

(** Only rooms with an origin have a label. *)
Lemma values_room_labels_origin m room :
  laid_out m → room ∈ values (room_labels m) → room ∈ keys (origins m).
Proof.
  intros [_ _ <- _] Hin%values_dict_of_items_elem.
  unfold values, keys in *. rewrite <- list_fmap_compose in Hin.
  by rewrite (list_fmap_ext _ fst (room_map m)) in Hin by (by intros _ [] _).
Qed.

Lemma room_labels_elem m n room :
  NoDup (keys (room_map m)) →
  dict_get n (room_labels m) = Some room →
  ∃ node_info,
    dict_get room (room_map m) = Some node_info ∧ n = node_id node_info.
Proof.
  intros Hnd Hget%dict_get_of_items_elem.
  apply list_elem_of_fmap in Hget as ([room' info] & [= -> ->] & Hin).
  exists info. split; [by apply dict_get_elem_NoDup|done].
Qed.

(** The graph that is drawn has the keys of the labels as its nodes, in
    the same order. *)
Lemma drawn_nodes m :
  laid_out m →
  nx.nodes (nx.add_edges_from (drawn_edges m)
              (nx.add_nodes_from (node_ids m) nx.empty))
  = keys (room_labels m).
Proof.
  intros [_ _ _ Hedges]. unfold nx.nodes.
  rewrite keys_add_edges_from_id; rewrite keys_add_nodes_from.
  - by rewrite keys_room_labels.
  - intros e He. rewrite !fold_stored_elem. unfold drawn_edges in He.
    apply list_elem_of_join in He as (es & He & Hes).
    apply list_elem_of_fmap in Hes as ([room info] & -> & Hin).
    apply list_elem_of_fmap in He as (e_node & -> & He). simpl. split; left.
    + unfold node_ids. apply list_elem_of_fmap. by exists (room, info).
    + by eapply Hedges.
Qed.

(** On a laid out map, [show] only depends on the player for the index of
    the highlighted label. *)
Lemma show_laid_out m player :
  laid_out m →
  ∃ g positions,
    nx.nodes g = keys (room_labels m)
    ∧ show m player
      = let* location := py_getitem (Player.position player) "location" in
        let* i := py_index (matches location) (values (room_labels m)) in
        Ok {| graph := g; pos := positions;
              node_color :=
                <[i := red]> ((fun _ => blue) <$> keys (room_labels m));
              labels := room_labels m |}.
Proof.
  intros Hm. pose proof Hm as [Hne Hnd Hkeys _].
  assert (values (origins m) ≠ []) as Hvalues
    by (by intros ?%fmap_nil_inv).
  destruct (py_max_nonempty y _ Hvalues) as [top Htop].
  destruct (map_each_total
              (fun '(room, origin) =>
                 let* node_info := dict_item room (room_map m) in
                 Ok (node_id node_info,
                     (x origin, Z.abs (y origin - y top))))
              (origins m)) as [positions Hpositions].
  { intros [room origin] Hin.
    assert (room ∈ keys (room_map m)) as [info Hinfo]%dict_get_is_Some_keys.
    { rewrite Hkeys. apply list_elem_of_fmap. by exists (room, origin). }
    unfold dict_item. rewrite Hinfo. by eexists. }
  eexists _, (dict_of_items positions). split; [by apply drawn_nodes|].
  unfold show. fold (room_labels m). rewrite Htop. cbn [bind].
  rewrite Hpositions. cbn [bind]. reflexivity.
Qed.
End renderer.

(** C9: on a map that has been built, [show] raises [ValueError] from the
    lookup of the highlight when the player's location is not among the
    labels of the drawn rooms, as it is not when the player's room has no
    origin; when it is among them, the map is drawn, its colours are
    listed in the order of its nodes, and the node of the player's room is
    the one red node: every other node is blue. *)
Theorem player_room_highlighted
    (rooms : list (string * Room.t)) (player0 player : Player.t)
    (m : Map.t) (location : value) :
  Map.__init__ rooms player0 = Ok m →
  py_getitem (Player.position player) "location" = Ok location →
  ((∀ room, room ∈ values (room_labels m) → location ≠ VStr room) →
   Map.show m player = Raise (ValueError NotInList))
  ∧ (∀ room,
       location = VStr room → room ∉ keys (Map.origins m) →
       Map.show m player = Raise (ValueError NotInList))
  ∧ (∀ room,
       location = VStr room → room ∈ values (room_labels m) →
       ∃ d node_info,
         Map.show m player = Ok d
         ∧ Map.labels d = room_labels m
         ∧ nx.nodes (Map.graph d) = keys (Map.labels d)
         ∧ length (Map.node_color d) = length (nx.nodes (Map.graph d))
         ∧ dict_get room (Map.room_map m) = Some node_info
         ∧ Map.node_id node_info ∈ nx.nodes (Map.graph d)
         ∧ ∀ j n,
             nx.nodes (Map.graph d) !! j = Some n →
             Map.node_color d !! j
             = Some (if decide (n = Map.node_id node_info)
                     then Map.red else Map.blue)).
Proof.
  intros Hm%init_Ok_layout%layout_laid_out Hlocation.
  destruct (show_laid_out m player Hm) as (g & positions & Hnodes & Hshow).
  rewrite Hlocation in Hshow. cbn [bind] in Hshow.
  assert ((∀ room, room ∈ values (room_labels m) → location ≠ VStr room) →
          Map.show m player = Raise (ValueError NotInList)) as Hraise.
  { intros Habsent. rewrite Hshow, py_index_absent; [done|].
    intros label Hlabel. specialize (Habsent label Hlabel).
    destruct location; simpl; try done.
    apply bool_decide_eq_false_2. congruence. }
  split_and!; [done| |].
  - intros room -> Hroom. apply Hraise. intros label Hlabel [= <-].
    by apply Hroom, values_room_labels_origin.
  - intros room -> Hroom.
    destruct (py_index_present (matches (VStr room)) (values (room_labels m)))
      as (i & label & Hindex & Hi & Hlabel).
    { exists room. split; [done|]. simpl. by apply bool_decide_eq_true_2. }
    simpl in Hlabel. apply bool_decide_eq_true_1 in Hlabel as ->.
    rewrite Hindex in Hshow. cbn [bind] in Hshow.
    unfold values in Hi. rewrite list_lookup_fmap in Hi.
    destruct (room_labels m !! i) as [[n_i room']|] eqn:Hentry;
      simpl in Hi; [|done]. injection Hi as ->.
    assert (NoDup (keys (room_labels m))) as Hnd
      by apply NoDup_keys_dict_of_items.
    assert (keys (room_labels m) !! i = Some n_i) as Hkey_i.
    { unfold keys. by rewrite list_lookup_fmap, Hentry. }
    destruct (room_labels_elem m n_i room) as (info & Hinfo & ->).
    { by destruct Hm. }
    { apply dict_get_elem_NoDup; [done|]. by eapply list_elem_of_lookup_2. }
    eexists _, info. split; [exact Hshow|]. cbn [Map.labels Map.graph Map.node_color].
    split_and!; try done.
    + by rewrite length_insert, length_fmap, Hnodes.
    + rewrite Hnodes. by eapply list_elem_of_lookup_2.
    + intros j n Hj. rewrite Hnodes in Hj.
      destruct (decide (j = i)) as [->|Hne].
      * rewrite Hkey_i in Hj. injection Hj as <-.
        rewrite decide_True by done. apply list_lookup_insert_eq.
        rewrite length_fmap. by eapply lookup_lt_Some.
      * rewrite list_lookup_insert_ne by done.
        rewrite list_lookup_fmap, Hj. simpl.
        rewrite decide_False; [done|]. intros ->.
        apply Hne. by eapply NoDup_lookup.
Qed.

(** ** The theorems at sample worlds *)

Lemma later_edge_sets_origin_witness :
  ∃ origins',
    Map._adjust_minimap_origins
      (Samples.room VNone (VStr "C") VNone VNone) "down"
      [("A", {| Map.x := 0; Map.y := 0 |}); ("C", {| Map.x := 1; Map.y := 0 |})]
      "B" [("A", 0); ("B", 1); ("C", 2)]
    = Ok (origins', Some (1, 2))
    ∧ dict_get "C" origins' = Some {| Map.x := 0; Map.y := 1 |}.
Proof.
  destruct (later_edge_sets_origin
              (Samples.room VNone (VStr "C") VNone VNone) "down"
              [("A", {| Map.x := 0; Map.y := 0 |});
               ("C", {| Map.x := 1; Map.y := 0 |})]
              "B" [("A", 0); ("B", 1); ("C", 2)] "C" 1 2)
    as (origins' & Hcall & Hdest & _).
  - reflexivity.
  - discriminate.
  - reflexivity.
  - reflexivity.
  - exists origins'. split; [exact Hcall|]. rewrite Hdest. reflexivity.
Defined.

Lemma normalized_origins_nonnegative_witness :
  ∃ m,
    Map.__init__ Samples.corridor (Samples.player_at "A") = Ok m
    ∧ ∀ p, p ∈ values (Map.origins m) → 0 ≤ Map.x p ∧ 0 ≤ Map.y p.
Proof.
  assert (∃ m, Map.__init__ Samples.corridor (Samples.player_at "A") = Ok m)
    as [m Hm].
  { vm_compute. eexists. reflexivity. }
  exists m. split; [exact Hm|].
  destruct (normalized_origins_nonnegative
              Samples.corridor (Samples.player_at "A") m Hm)
    as (raw & left & top & left' & top' & _ & _ & _ & _ & _ & _ & _ & Hall).
  exact Hall.
Defined.

Lemma node_id_row_major_witness :
  ∃ m right,
    Map.__init__ Samples.corridor (Samples.player_at "A") = Ok m
    ∧ py_max Map.x (values (Map.origins m)) = Ok right
    ∧ keys (Map.room_map m) = keys (Map.origins m).
Proof.
  assert (∃ m, Map.__init__ Samples.corridor (Samples.player_at "A") = Ok m)
    as [m Hm].
  { vm_compute. eexists. reflexivity. }
  destruct (node_id_row_major
              Samples.corridor (Samples.player_at "A") m Hm)
    as (right & Hright & Hkeys & _).
  exists m, right. split; [exact Hm|]. split; [exact Hright|exact Hkeys].
Defined.


Lemma exits_and_edges_witness :
  ∃ u, dict_get "A" [("A", 0)] = Some u ∧ nbr [(0, [0])] u u.
Proof.
  destruct (exits_and_edges [(0, [])] [("A", 0)] Samples.mirror
              [("A", {| Map.x := 1; Map.y := 0 |})] [(0, [0])] eq_refl)
    as (_ & _ & Hself).
  apply (Hself "A" (Samples.room VNone VNone VNone (VStr "A")) "right").
  - left.
  - unfold directions. do 3 right. left.
  - reflexivity.
  - discriminate.
Defined.

Lemma empty_origins_fail_witness :
  raw_origins Samples.vault = Ok []
  ∧ Map.layout Samples.vault = Raise (ValueError EmptySequence).
Proof.
  split; [reflexivity|].
  destruct (empty_origins_fail Samples.vault [] eq_refl) as (_ & Hempty & _).
  destruct (Hempty eq_refl) as (_ & Hlayout & _). exact Hlayout.
Defined.

Lemma save_load_idempotent_witness :
  ∃ g g',
    Game.__init__ Samples.world = Ok g
    ∧ Game.__init__ (Game.save g) = Ok g'
    ∧ Game.save g' = Game.save g.
Proof.
  assert (∃ g, Game.__init__ Samples.world = Ok g) as [g Hg].
  { vm_compute. eexists. reflexivity. }
  destruct (save_load_idempotent Samples.world g Hg)
    as ((g' & Hload & Hsave) & _).
  exists g, g'. split; [exact Hg|]. split; [exact Hload|exact Hsave].
Defined.

Lemma validator_reports_dangling_exits_witness :
  ∃ lines,
    saveload.check_rooms [("A", VDict [("east", VStr "Ghost")])] []
    = (lines, Ok ())
    ∧ "Going east from A will lead to an error." ∈ lines.
Proof.
  destruct (validator_reports_dangling_exits
              [("A", VDict [("east", VStr "Ghost")])] [])
    as ((lines & Hrun & _ & Hdangling) & _).
  - intros name room Hin. apply elem_of_cons in Hin as [Heq|Hin].
    + injection Heq as -> ->. eexists. split; [reflexivity|].
      intros direction exit _ Hexit. simpl in Hexit.
      destruct (decide (direction = "east")); [|discriminate Hexit].
      injection Hexit as <-. reflexivity.
    + by apply elem_of_nil in Hin.
  - exists lines. split; [exact Hrun|].
    apply (Hdangling "A" [("east", VStr "Ghost")] "east" "Ghost").
    + reflexivity.
    + unfold saveload.DIRECTIONS. do 2 right. left.
    + reflexivity.
    + reflexivity.
Defined.

Lemma player_room_highlighted_witness :
  ∃ m d,
    Map.__init__ Samples.corridor (Samples.player_at "A") = Ok m
    ∧ Map.show m (Samples.player_at "B") = Ok d
    ∧ nx.nodes (Map.graph d) = keys (Map.labels d)
    ∧ Map.show m (Samples.player_at "Cellar") = Raise (ValueError NotInList).
Proof.
  pose (m := {| Map.origins :=
                  [("A", {| Map.x := 0; Map.y := 0 |});
                   ("B", {| Map.x := 1; Map.y := 0 |})];
                Map.room_map :=
                  [("A", {| Map.node_id := Some 0; Map.edges := [1] |});
                   ("B", {| Map.node_id := Some 1; Map.edges := [0] |})] |}).
  assert (Map.__init__ Samples.corridor (Samples.player_at "A") = Ok m)
    as Hm by (vm_compute; reflexivity).
  destruct (player_room_highlighted
              Samples.corridor (Samples.player_at "A") (Samples.player_at "B")
              m (VStr "B") Hm eq_refl) as (_ & _ & Hpresent).
  destruct (Hpresent "B" eq_refl) as (d & info & Hshow & _ & Hnodes & _).
  { right. left. }
  destruct (player_room_highlighted
              Samples.corridor (Samples.player_at "A")
              (Samples.player_at "Cellar")
              m (VStr "Cellar") Hm eq_refl) as (Habsent & _ & _).
  exists m, d. split; [exact Hm|]. split; [exact Hshow|].
  split; [exact Hnodes|]. apply Habsent.
  intros room Hroom.
  apply elem_of_cons in Hroom as [->|Hroom]; [discriminate|].
  apply elem_of_cons in Hroom as [->|Hroom]; [discriminate|].
  apply elem_of_nil in Hroom. destruct Hroom.
Defined.

(** * Further properties *)

(** ** The builder on rooms with and without dangling exits *)

Lemma for_each_raise {A S : Type} (E : exn → Prop) (body : S → A → result S) l :
  (∀ s a e, a ∈ l → body s a = Raise e → E e) →
  ∀ s e, for_each body s l = Raise e → E e.
Proof.
  intros Hbody. induction l as [|a l IH]; intros s e Hrun; [done|].
  simpl in Hrun. destruct (body s a) as [s1|e1] eqn:Ha; simpl in Hrun.
  - eapply IH; [|done]. intros ? ? ? ?. apply Hbody. by right.
  - injection Hrun as <-. eapply Hbody; [left|done].
Qed.

Lemma for_each_total {A S : Type} (body : S → A → result S) l :
  (∀ s a, a ∈ l → ∃ s', body s a = Ok s') →
  ∀ s, ∃ s', for_each body s l = Ok s'.
Proof.
  intros Hbody. induction l as [|a l IH]; intros s; [by eexists|].
  simpl. destruct (Hbody s a) as [s1 ->]; [left|]. simpl.
  apply IH. intros ? ? ?. apply Hbody. by right.
Qed.

Lemma keys_nodes_of rooms k : k ∈ keys (nodes_of rooms) ↔ k ∈ keys rooms.
Proof.
  unfold nodes_of, dict_of_items. rewrite keys_dict_of_items_stored.
  rewrite fold_stored_elem. unfold keys at 1. rewrite fst_zip.
  - split; [intros [?|Hx]; [done|by apply elem_of_nil in Hx]|by left].
  - rewrite length_seqZ. lia.
Qed.

Lemma plain_exit_cases room direction :
  plain_exits room → direction ∈ directions →
  ∃ exit, py_getitem (Room.paths room) direction = Ok exit
    ∧ (truthy exit = false ∨ ∃ dest, exit = VStr dest ∧ dest ≠ "").
Proof.
  intros (d & Hd & Hall) Hdir. destruct (Hall _ Hdir) as (exit & Hexit & Hcases).
  exists exit. rewrite Hd. unfold py_getitem, dict_item. rewrite Hexit.
  split; [done|]. destruct Hcases as [->|[dest ->]]; [by left|].
  destruct (decide (dest = "")) as [->|Hne]; [by left|right; by exists dest].
Qed.

Lemma adjust_plain room direction origins name nodes :
  plain_exits room → direction ∈ directions →
  (∃ r, Map._adjust_minimap_origins room direction origins name nodes = Ok r)
  ∨ Map._adjust_minimap_origins room direction origins name nodes = Raise KeyError.
Proof.
  intros Hplain Hdir.
  destruct (plain_exit_cases _ _ Hplain Hdir) as (exit & Hexit & [Hf|(dest & -> & Hne)]).
  - left. eexists. by eapply adjust_no_exit.
  - destruct (dict_get name nodes) as [u|] eqn:Hu;
      [destruct (dict_get dest nodes) as [v|] eqn:Hv|].
    + left. eexists. by eapply adjust_exit.
    + right. unfold Map._adjust_minimap_origins. rewrite Hexit. cbn [bind truthy].
      assert (String.eqb dest "" = false) as -> by (by apply String.eqb_neq).
      cbn [negb Map.exit_key bind]. fold origin0. fold (ensure name origins).
      fold (ensure dest (ensure name origins)).
      unfold dict_item at 1. rewrite dict_get_ensure_source. cbn [bind].
      unfold dict_item. by rewrite Hu, Hv.
    + right. unfold Map._adjust_minimap_origins. rewrite Hexit. cbn [bind truthy].
      assert (String.eqb dest "" = false) as -> by (by apply String.eqb_neq).
      cbn [negb Map.exit_key bind]. fold origin0. fold (ensure name origins).
      fold (ensure dest (ensure name origins)).
      unfold dict_item at 1. rewrite dict_get_ensure_source. cbn [bind].
      unfold dict_item. by rewrite Hu.
Qed.

Lemma rooms_loop_plain nodes rooms s e :
  (∀ name room, (name, room) ∈ rooms → plain_exits room) →
  for_each (room_step nodes) s rooms = Raise e → e = KeyError.
Proof.
  intros Hplain. apply (for_each_raise (fun e => e = KeyError)).
  intros [origins recorded] [name room] e' Hin. unfold room_step.
  apply (for_each_raise (fun e => e = KeyError)).
  intros [o r] direction e2 Hdir. unfold direction_step.
  destruct (adjust_plain room direction o name nodes (Hplain _ _ Hin) Hdir)
    as [[[o' edge] ->]| ->]; [done|]. by intros [= <-].
Qed.

(** When every room has its four exits, each null or a string, and some
    exit that is not null names no room, the map is not built: the lookup
    of the missing room's provisional id raises [KeyError]. *)
Theorem dangling_exit_raises rooms name dest :
  (∀ name room, (name, room) ∈ rooms → plain_exits room) →
  linked rooms name dest → dest ∉ keys rooms →
  Map.layout rooms = Raise KeyError
  ∧ ∀ player, Map.__init__ rooms player = Raise KeyError.
Proof.
  intros Hplain (room & direction & Hroom & Hdir & Hexit & Hne) Hdangling.
  assert (Map.layout rooms = Raise KeyError) as Hlayout.
  { rewrite layout_unfold, construct_unfold.
    destruct (for_each (room_step (nodes_of rooms)) ([], []) rooms)
      as [s'|e] eqn:Hloop.
    - exfalso.
      destruct (rooms_loop_records _ _ _ _ _ _ _ _ Hloop Hroom Hdir Hexit)
        as (dest' & u & v & [= <-] & _ & _ & Hv & _).
      { simpl. by apply negb_true_iff, String.eqb_neq. }
      apply Hdangling, keys_nodes_of, dict_get_is_Some_keys. eauto.
    - by rewrite (rooms_loop_plain _ _ _ _ Hplain Hloop). }
  split; [done|]. intros player. unfold Map.__init__. by rewrite Hlayout.
Qed.

Lemma construct_total rooms :
  (∀ name room, (name, room) ∈ rooms → plain_exits room) →
  closed rooms →
  ∃ raw minimap,
    Map._construct_minimap (minimap0 rooms) (nodes_of rooms) rooms
    = Ok (raw, minimap).
Proof.
  intros Hplain Hclosed. rewrite construct_unfold.
  assert (∀ s a, a ∈ rooms → ∃ s', room_step (nodes_of rooms) s a = Ok s')
    as Hstep; [|destruct (for_each_total _ _ Hstep ([], []))
                  as [[raw recorded] ->]; by eexists _, _].
  intros [origins recorded] [name room] Hin. unfold room_step.
  apply for_each_total. intros [o r] direction Hdir. unfold direction_step.
  destruct (plain_exit_cases _ _ (Hplain _ _ Hin) Hdir)
    as (exit & Hexit & [Hf|(dest & -> & Hne)]).
  - rewrite (adjust_no_exit _ _ _ _ _ _ Hexit Hf). by eexists.
  - assert (name ∈ keys (nodes_of rooms)) as [u Hu]%dict_get_is_Some_keys.
    { apply keys_nodes_of, list_elem_of_fmap. by exists (name, room). }
    assert (dest ∈ keys (nodes_of rooms)) as [v Hv]%dict_get_is_Some_keys.
    { apply keys_nodes_of, (Hclosed name). by exists room, direction. }
    rewrite (adjust_exit _ _ _ _ _ _ _ _ Hexit Hne Hu Hv). by eexists.
Qed.

(** When every room has its four exits, each null or a string, every exit
    that is not null names a room, and there is such an exit, the layout
    is completed without an exception. *)
Theorem closed_rooms_are_laid_out rooms name dest :
  (∀ name room, (name, room) ∈ rooms → plain_exits room) →
  closed rooms → linked rooms name dest →
  ∃ m, Map.layout rooms = Ok m.
Proof.
  intros Hplain Hclosed (room & direction & Hroom & Hdir & Hexit & Hne).
  destruct (construct_total rooms Hplain Hclosed) as (raw & minimap & Hc).
  apply (layout_total _ _ _ Hc). intros ->.
  rewrite construct_unfold in Hc.
  apply bind_Ok in Hc as ([raw' recorded] & Hloop & Hc). injection Hc as -> _.
  destruct (rooms_loop_records _ _ _ _ _ _ _ _ Hloop Hroom Hdir Hexit)
    as (? & ? & ? & _ & _ & _ & _ & _ & Hname & _).
  { simpl. by apply negb_true_iff, String.eqb_neq. }
  by apply elem_of_nil in Hname.
Qed.

Lemma rooms_loop_keys_linked nodes rooms s' :
  for_each (room_step nodes) ([], []) rooms = Ok s' →
  ∀ k, k ∈ keys s'.1 →
    (∃ dest, linked rooms k dest) ∨ (∃ name, linked rooms name k).
Proof.
  apply (for_each_inv
           (fun s => ∀ k, k ∈ keys s.1 →
              (∃ dest, linked rooms k dest) ∨ (∃ name, linked rooms name k))).
  - intros [origins recorded] [name room] t Hroom Hs. unfold room_step.
    apply (for_each_inv
             (fun s => ∀ k, k ∈ keys s.1 →
                (∃ dest, linked rooms k dest) ∨ (∃ name, linked rooms name k)));
      [|done].
    intros s direction s2 Hdir Hs1
      (exit & Hexit & [[_ ->]|(dest & u & v & -> & Hdest & _ & _ & ->)])
        %direction_step_Ok_inv; [done|].
    simpl. intros k [->|[->|Hk]]%keys_placed_elem.
    + left. exists dest, room, direction. done.
    + right. exists name, room, direction. done.
    + by apply Hs1.
  - intros k Hk. by apply elem_of_nil in Hk.
Qed.

(** The rooms that get an origin are the rooms with an exit that is not
    null and the rooms that such an exit names; any other room is absent
    from the minimap. *)
Theorem origin_iff_linked rooms raw k :
  raw_origins rooms = Ok raw →
  k ∈ keys raw ↔
  (∃ dest, linked rooms k dest) ∨ (∃ name, linked rooms name k).
Proof.
  intros (minimap & Hc)%raw_origins_construct.
  rewrite construct_unfold in Hc.
  apply bind_Ok in Hc as ([raw' recorded] & Hloop & Hc). injection Hc as -> _.
  split.
  - by apply (rooms_loop_keys_linked _ _ _ Hloop).
  - intros [[dest (room & direction & Hroom & Hdir & Hexit & Hne)]
           |[name (room & direction & Hroom & Hdir & Hexit & Hne)]];
      destruct (rooms_loop_records _ _ _ _ _ _ _ _ Hloop Hroom Hdir Hexit)
        as (d' & ? & ? & [= <-] & _ & _ & _ & _ & Hn & Hd);
      try (simpl; by apply negb_true_iff, String.eqb_neq); done.
Qed.

Lemma shift_as_fmap dx dy origins :
  shift_y dy (shift_x dx origins)
  = (fun kv => (kv.1, shifted dx dy kv.2)) <$> origins.
Proof.
  unfold shift_y, shift_x, shifted.
  destruct (dx <? 0), (dy <? 0); rewrite <- ?list_fmap_compose.
  - apply list_fmap_ext; intros _ [name [px py]] _; simpl. done.
  - apply list_fmap_ext; intros _ [name [px py]] _; simpl.
    do 2 f_equal; lia.
  - apply list_fmap_ext; intros _ [name [px py]] _; simpl.
    do 2 f_equal; lia.
  - rewrite <- (list_fmap_id origins) at 1.
    apply list_fmap_ext; intros _ [name [px py]] _; simpl.
    do 2 f_equal; lia.
Qed.

(** Normalisation moves every origin by the same amounts, which are not
    negative, and keeps the rooms and their order. *)
Theorem normalization_is_one_shift rooms m :
  Map.layout rooms = Ok m →
  ∃ raw dx dy,
    raw_origins rooms = Ok raw
    ∧ 0 ≤ dx ∧ 0 ≤ dy
    ∧ keys (Map.origins m) = keys raw
    ∧ ∀ name,
        dict_get name (Map.origins m)
        = (fun p => {| Map.x := Map.x p + dx; Map.y := Map.y p + dy |})
            <$> dict_get name raw.
Proof.
  intros Hlayout. apply layout_Ok_inv in Hlayout
    as (raw & minimap & left & top & right & ids
        & Hraw & _ & _ & Horigins & _).
  exists raw, (if Map.x left <? 0 then Z.abs (Map.x left) else 0),
    (if Map.y top <? 0 then Z.abs (Map.y top) else 0).
  split_and!.
  - apply raw_origins_construct. eauto.
  - destruct (_ <? _); lia.
  - destruct (_ <? _); lia.
  - by rewrite Horigins, keys_shift_y, keys_shift_x.
  - intros name. rewrite Horigins, shift_as_fmap.
    apply (dict_get_fmap_value (fun _ p => shifted (Map.x left) (Map.y top) p)).
Qed.

Lemma layout_nonnegative rooms m p :
  Map.layout rooms = Ok m → p ∈ values (Map.origins m) →
  0 ≤ Map.x p ∧ 0 ≤ Map.y p.
Proof.
  intros Hlayout Hp. apply layout_Ok_inv in Hlayout
    as (raw & minimap & left & top & right & ids
        & _ & Hleft & Htop & Horigins & _).
  apply py_min_Ok_inv in Hleft as [_ Hleft].
  apply py_min_Ok_inv in Htop as [_ Htop].
  rewrite Horigins, values_shift in Hp.
  apply list_elem_of_fmap in Hp as (q & -> & Hq).
  specialize (Hleft q Hq). specialize (Htop q Hq). unfold shifted. simpl.
  destruct (Z.ltb_spec (Map.x left) 0), (Z.ltb_spec (Map.y top) 0); lia.
Qed.

Lemma dict_get_values {V : Type} (k : string) (v : V) d :
  dict_get k d = Some v → v ∈ values d.
Proof.
  intros Hin%dict_get_Some_elem. apply list_elem_of_fmap. by exists (k, v).
Qed.

(** The node id of a room lies on the grid that is the greatest x plus 1
    wide and the greatest y plus 1 high, and gives the origin back: x is
    the id modulo the width and y the id divided by the width, so rooms
    with the same node id have the same origin. *)
Theorem node_id_decodes rooms m :
  Map.layout rooms = Ok m →
  ∃ right top,
    py_max Map.x (values (Map.origins m)) = Ok right
    ∧ py_max Map.y (values (Map.origins m)) = Ok top
    ∧ ∀ name origin,
        dict_get name (Map.origins m) = Some origin →
        ∃ info a,
          dict_get name (Map.room_map m) = Some info
          ∧ Map.node_id info = Some a
          ∧ 0 ≤ a < (Map.x right + 1) * (Map.y top + 1)
          ∧ a `mod` (Map.x right + 1) = Map.x origin
          ∧ a `div` (Map.x right + 1) = Map.y origin.
Proof.
  intros Hlayout. pose proof Hlayout as Hinv. apply layout_Ok_inv in Hinv
    as (raw & minimap & left & top0 & right & ids
        & _ & _ & _ & _ & Hright & _ & Hroom_map & _).
  assert (values (Map.origins m) ≠ []) as Hne.
  { intros Hnil. by rewrite Hnil in Hright. }
  destruct (py_max_nonempty Map.y _ Hne) as [top Htop].
  exists right, top. split_and!; [done..|].
  intros name origin Hget.
  pose proof (dict_get_values _ _ _ Hget) as Hin.
  destruct (layout_nonnegative _ _ _ Hlayout Hin) as [Hx Hy].
  pose proof (proj2 (py_max_Ok_inv _ _ _ Hright) _ Hin) as Hxr.
  pose proof (proj2 (py_max_Ok_inv _ _ _ Htop) _ Hin) as Hyt.
  eexists _, _. rewrite Hroom_map, dict_get_finished, Hget. simpl.
  split_and!; [reflexivity..| | | |]; unfold cell.
  - nia.
  - nia.
  - symmetry. apply (Z.mod_unique_pos _ _ (Map.y origin)); lia.
  - symmetry. apply (Z.div_unique_pos _ _ _ (Map.x origin)); lia.
Qed.

(** With room names that are strings, every id in the neighbour list of
    a room A is the node id of a recorded room B such that A has an exit
    to B or B has an exit to A. *)
Theorem neighbour_ids_come_from_exits rooms m A info e :
  Map.layout rooms = Ok m →
  dict_get A (Map.room_map m) = Some info →
  e ∈ Map.edges info →
  ∃ B info_B,
    dict_get B (Map.room_map m) = Some info_B
    ∧ Map.node_id info_B = Some e
    ∧ (linked rooms A B ∨ linked rooms B A).
Proof.
  intros Hlayout Hinfo He. apply layout_Ok_inv in Hlayout
    as (raw & minimap & left & top & right & ids
        & Hraw & _ & _ & Horigins & _ & Hnd & Hroom_map & _ & Hids & Hnodes).
  rewrite construct_unfold in Hraw.
  apply bind_Ok in Hraw as ([raw' recorded] & Hloop & Hraw).
  injection Hraw as -> <-.
  pose proof (rooms_loop_sound _ _ _ Hloop) as (_ & _ & Hsound).
  simpl in Hsound.
  rewrite Hroom_map, dict_get_finished in Hinfo.
  destruct (dict_get A (Map.origins m)) as [origin_A|] eqn:HA; [|done].
  injection Hinfo as <-. simpl in He.
  destruct (Hnodes A) as (old & Hold & _).
  { apply dict_get_is_Some_keys. eauto. }
  rewrite Hold in He. simpl in He.
  apply list_elem_of_omap in He as (v & Hv%nbr_neighbours & Hve).
  destruct (Hids _ _ Hve) as (B & origin_B & HB & HBv & ->).
  exists B. eexists. rewrite Hroom_map, dict_get_finished.
  rewrite (dict_get_elem_NoDup _ _ _ Hnd HB). simpl.
  split_and!; [reflexivity..|].
  assert (∀ u w, from_exit (nodes_of rooms) rooms raw u w →
            dict_get A (nodes_of rooms) = Some u →
            dict_get B (nodes_of rooms) = Some w → linked rooms A B) as Hfwd.
  { intros u w (n1 & room & d & n2 & ? & ? & ? & ? & Hn1 & Hn2 & _) Hu Hw.
    rewrite (nodes_of_inj _ _ _ _ Hu Hn1), (nodes_of_inj _ _ _ _ Hw Hn2).
    by exists room, d. }
  assert (∀ u w, from_exit (nodes_of rooms) rooms raw u w →
            dict_get B (nodes_of rooms) = Some u →
            dict_get A (nodes_of rooms) = Some w → linked rooms B A) as Hbwd.
  { intros u w (n1 & room & d & n2 & ? & ? & ? & ? & Hn1 & Hn2 & _) Hu Hw.
    rewrite (nodes_of_inj _ _ _ _ Hu Hn1), (nodes_of_inj _ _ _ _ Hw Hn2).
    by exists room, d. }
  apply nbr_add_edges_from in Hv as [Hv|[Hv|Hv]].
  - unfold minimap0 in Hv. apply nbr_add_nodes_from in Hv.
    by apply nbr_empty in Hv.
  - apply list_elem_of_omap in Hv as ([edge|] & Hedge & Hid);
      simpl in Hid; simplify_eq. left. eapply Hfwd; eauto.
  - apply list_elem_of_omap in Hv as ([edge|] & Hedge & Hid);
      simpl in Hid; simplify_eq. right. eapply Hbwd; eauto.
Qed.

Lemma py_index_Ok_inv {A : Type} (same : A → bool) l i :
  py_index same l = Ok i → ∃ a, l !! i = Some a ∧ same a = true.
Proof.
  revert i. induction l as [|b l IH]; intros i; simpl; [done|].
  destruct (same b) eqn:Hb.
  - intros [= <-]. by exists b.
  - intros (j & Hj & [= <-])%bind_Ok. by apply IH.
Qed.

(** The map is built exactly when the layout is completed and the
    player's location is a string that is the label of a drawn room; the
    player's room then has an origin. *)
Theorem map_is_built_iff rooms player m :
  Map.__init__ rooms player = Ok m ↔
  Map.layout rooms = Ok m
  ∧ ∃ room,
      py_getitem (Player.position player) "location" = Ok (VStr room)
      ∧ room ∈ values (room_labels m)
      ∧ room ∈ keys (Map.origins m).
Proof.
  split.
  - intros Hinit. pose proof (init_Ok_layout _ _ _ Hinit) as Hlayout.
    split; [done|]. pose proof (layout_laid_out _ _ Hlayout) as Hm.
    unfold Map.__init__ in Hinit. rewrite Hlayout in Hinit.
    cbn [bind] in Hinit. apply bind_Ok in Hinit as (d & Hshow & _).
    destruct (show_laid_out m player Hm) as (g & positions & _ & Heq).
    rewrite Heq in Hshow.
    apply bind_Ok in Hshow as (location & Hlocation & Hshow).
    apply bind_Ok in Hshow as (i & Hindex & _).
    apply py_index_Ok_inv in Hindex as (label & Hlabel & Hsame).
    destruct location as [| | |s| |]; try discriminate Hsame.
    simpl in Hsame. apply bool_decide_eq_true_1 in Hsame as <-.
    exists label. apply list_elem_of_lookup_2 in Hlabel.
    split_and!; [done..|by apply values_room_labels_origin].
  - intros (Hlayout & room & Hlocation & Hroom & _).
    pose proof (layout_laid_out _ _ Hlayout) as Hm.
    unfold Map.__init__. rewrite Hlayout. cbn [bind].
    destruct (show_laid_out m player Hm) as (g & positions & _ & ->).
    rewrite Hlocation. cbn [bind].
    destruct (py_index_present (matches (VStr room)) (values (room_labels m)))
      as (i & label & -> & _).
    { exists room. split; [done|]. simpl. by apply bool_decide_eq_true_2. }
    done.
Qed.

Lemma show_positions rooms m player d :
  Map.layout rooms = Ok m →
  Map.show m player = Ok d →
  ∃ right top,
    py_max Map.x (values (Map.origins m)) = Ok right
    ∧ py_max Map.y (values (Map.origins m)) = Ok top
    ∧ Map.pos d
      = dict_of_items
          (plotted (Map.x right + 1) (Map.y top) <$> Map.origins m)
    ∧ nx.nodes (Map.graph d) = keys (room_labels m).
Proof.
  intros Hlayout Hshow. pose proof (layout_laid_out _ _ Hlayout) as Hm.
  apply layout_Ok_inv in Hlayout
    as (raw & minimap & left & top0 & right & ids
        & _ & _ & _ & _ & Hright & Hnd & Hroom_map & _).
  unfold Map.show in Hshow.
  apply bind_Ok in Hshow as (top & Htop & Hshow).
  apply bind_Ok in Hshow as (positions & Hpositions & Hshow).
  apply bind_Ok in Hshow as (location & _ & Hshow).
  apply bind_Ok in Hshow as (i & _ & Hshow). injection Hshow as <-.
  exists right, top. split_and!; [done..| |by apply drawn_nodes].
  cbn [Map.pos]. f_equal.
  rewrite (map_each_Ok_fmap _ (plotted (Map.x right + 1) (Map.y top)))
    in Hpositions; [by injection Hpositions as <-|].
  intros [room origin] Hin. unfold dict_item.
  rewrite Hroom_map, dict_get_finished.
  by rewrite (dict_get_elem_NoDup _ _ _ Hnd Hin).
Qed.

(** What is drawn has one position for each node of the graph, in the
    order of the nodes; the position of a node is the x of a room with
    that node id and the greatest y minus the room's y, which is not
    negative: a room further up is drawn higher. *)
Theorem drawn_positions rooms m player d :
  Map.layout rooms = Ok m →
  Map.show m player = Ok d →
  keys (Map.pos d) = nx.nodes (Map.graph d)
  ∧ ∃ top,
      py_max Map.y (values (Map.origins m)) = Ok top
      ∧ ∀ n px py,
          dict_get n (Map.pos d) = Some (px, py) →
          ∃ room origin info,
            dict_get room (Map.origins m) = Some origin
            ∧ dict_get room (Map.room_map m) = Some info
            ∧ Map.node_id info = n
            ∧ px = Map.x origin
            ∧ py = Map.y top - Map.y origin
            ∧ 0 ≤ py.
Proof.
  intros Hlayout Hshow.
  destruct (show_positions _ _ _ _ Hlayout Hshow)
    as (right & top & Hright & Htop & Hpos & Hnodes).
  pose proof Hlayout as Hinv. apply layout_Ok_inv in Hinv
    as (raw & minimap & left & top0 & right' & ids
        & _ & _ & _ & _ & Hright' & Hnd & Hroom_map & _).
  rewrite Hright in Hright'. injection Hright' as <-.
  split.
  - rewrite Hnodes, Hpos, keys_room_labels.
    unfold dict_of_items. rewrite keys_dict_of_items_stored. f_equal.
    unfold node_ids, keys. rewrite Hroom_map, <- !list_fmap_compose.
    by apply list_fmap_ext.
  - exists top. split; [done|]. intros n px py Hget. rewrite Hpos in Hget.
    apply dict_get_of_items_elem, list_elem_of_fmap in Hget
      as ([room origin] & [= -> -> ->] & Hin).
    pose proof (dict_get_elem_NoDup _ _ _ Hnd Hin) as Horigin.
    exists room, origin. eexists.
    rewrite Hroom_map, dict_get_finished, Horigin. simpl.
    assert (Map.y origin ≤ Map.y top) as Hle.
    { apply (py_max_Ok_inv _ _ _ Htop). by eapply dict_get_values. }
    split_and!; try reflexivity; lia.
Qed.

(** ** The whole validator *)

Section main_facts.
Import saveload.
Variable py_str : value → string.
Variable pprint : value → list string.

Lemma main_header data out :
  main py_str pprint data out
  = match py_in "Rooms" data with
    | Raise e => raise e
    | Ok false => print "No rooms found."
    | Ok true =>
        match py_in "Items" data with
        | Raise e => raise e
        | Ok false => print "No items found."
        | Ok true =>
            match py_getitem data "Rooms" with
            | Raise e => raise e
            | Ok (VDict rooms) =>
                match py_getitem data "Items" with
                | Raise e => raise e
                | Ok (VDict items) =>
                    io_bind (check_rooms rooms)
                      (fun _ => check_items py_str items)
                | Ok _ => print "items in data were not proper data."
                end
            | Ok _ => print "Rooms in data were not proper data."
            end
        end
    end (out ++ header pprint data).
Proof.
  unfold main, io_bind, print, header. simpl.
  by rewrite <- !app_assoc.
Qed.

(** A check of an item that is a mapping prints one line and returns. *)
Lemma item_printed_spec items name idata d out :
  dict_get name items = Some (VDict d) →
  _item py_str items name idata out
  = (out ++ item_printed py_str items name idata, Ok ())
  ∧ length (item_printed py_str items name idata) = 1%nat.
Proof.
  intros Hitem. unfold item_printed, _item, dict_item. rewrite Hitem.
  unfold py_in, py_getitem, dict_item, dict_mem.
  destruct (dict_get idata d) as [[| | | | |]|]; done.
Qed.

Lemma check_items_lines items :
  (∀ name item, (name, item) ∈ items → ∃ d, item = VDict d) →
  ∃ lines,
    (∀ out, check_items py_str items out = (out ++ lines, Ok ()))
    ∧ length lines = length items.
Proof.
  intros Hwf.
  set (line name := mjoin ((fun idata => item_printed py_str items name idata)
                             <$> ITEMDATA)).
  assert (∀ name o, name ∈ keys items →
            io_for (fun idata => _item py_str items name idata) ITEMDATA o
            = (o ++ line name, Ok ()) ∧ length (line name) = 1%nat) as Hinner.
  { intros name o [item Hitem]%dict_get_is_Some_keys.
    destruct (Hwf _ _ (dict_get_Some_elem _ _ _ Hitem)) as [d ->].
    split.
    - apply io_for_lines. intros idata o' _.
      apply (item_printed_spec items name idata d o' Hitem).
    - unfold line. simpl. rewrite length_app. simpl.
      by rewrite (proj2 (item_printed_spec items name "holds" d [] Hitem)). }
  exists (mjoin (line <$> keys items)). split.
  - intros out. unfold check_items. apply io_for_lines. intros name o Hname.
    by apply Hinner.
  - assert (∀ names, (∀ n, n ∈ names → n ∈ keys items) →
              length (mjoin (line <$> names)) = length names) as Hlen.
    { induction names as [|n names IH]; intros Hsub; csimpl; [done|].
      rewrite length_app, IH by (intros; apply Hsub; by right).
      by rewrite (proj2 (Hinner n [] (Hsub n (list_elem_of_here _ _)))). }
    unfold keys in *. rewrite Hlen by done. by rewrite length_fmap.
Qed.

Lemma check_rooms_lines rooms :
  (∀ name room, (name, room) ∈ rooms → checkable room) →
  ∃ lines,
    (∀ out, check_rooms rooms out = (out ++ lines, Ok ()))
    ∧ length lines = (length rooms * 4)%nat.
Proof.
  intros Hwf.
  set (inner name :=
         mjoin ((fun direction => printed rooms name direction) <$> DIRECTIONS)).
  assert (∀ name o, name ∈ keys rooms →
            io_for (fun direction => _path rooms name direction) DIRECTIONS o
            = (o ++ inner name, Ok ())
            ∧ length (inner name) = 4%nat) as Hinner.
  { intros name o Hname.
    destruct (checkable_lookup _ _ Hwf Hname) as (d & Hd & Hhash).
    split.
    - apply io_for_lines. intros direction o' Hdir.
      apply (path_printed rooms name direction d o' Hd). eauto.
    - assert (∀ direction, direction ∈ DIRECTIONS →
                length (printed rooms name direction) = 1%nat) as Hone.
      { intros direction Hdir.
        apply (path_printed rooms name direction d [] Hd). eauto. }
      unfold inner. simpl. rewrite !length_app.
      rewrite !Hone; [done|unfold DIRECTIONS..];
        repeat (first [by left | right]). }
  exists (mjoin (inner <$> keys rooms)). split.
  - intros out. unfold check_rooms. apply io_for_lines. intros name o Hname.
    by apply Hinner.
  - assert (∀ names, (∀ n, n ∈ names → n ∈ keys rooms) →
              length (mjoin (inner <$> names)) = (length names * 4)%nat) as Hlen.
    { induction names as [|n names IH]; intros Hsub; csimpl; [done|].
      rewrite length_app, IH by (intros; apply Hsub; by right).
      by rewrite (proj2 (Hinner n [] (Hsub n (list_elem_of_here _ _)))). }
    unfold keys in *. rewrite Hlen by done. by rewrite length_fmap.
Qed.

(** For a document whose rooms and items are mappings of checkable
    entries, [main] prints its heading, one line for each room and checked
    direction, then one line for each item, and returns. *)
Theorem main_checks_every_entity d rooms items out :
  dict_get "Rooms" d = Some (VDict rooms) →
  dict_get "Items" d = Some (VDict items) →
  (∀ name room, (name, room) ∈ rooms → checkable room) →
  (∀ name item, (name, item) ∈ items → ∃ i, item = VDict i) →
  ∃ room_lines item_lines,
    main py_str pprint (VDict d) out
    = (out ++ header pprint (VDict d) ++ room_lines ++ item_lines, Ok ())
    ∧ check_rooms rooms [] = (room_lines, Ok ())
    ∧ length room_lines = (length rooms * 4)%nat
    ∧ length item_lines = length items.
Proof.
  intros Hrooms Hitems Hwf_rooms Hwf_items.
  destruct (check_rooms_lines rooms Hwf_rooms) as (room_lines & Hr & Hlen_r).
  destruct (check_items_lines items Hwf_items) as (item_lines & Hi & Hlen_i).
  exists room_lines, item_lines. rewrite main_header.
  assert (py_in "Rooms" (VDict d) = Ok true) as ->
    by (unfold py_in, dict_mem; by rewrite Hrooms).
  assert (py_in "Items" (VDict d) = Ok true) as ->
    by (unfold py_in, dict_mem; by rewrite Hitems).
  unfold py_getitem, dict_item. rewrite Hrooms, Hitems.
  unfold io_bind. rewrite Hr, Hi, (Hr []). rewrite <- !app_assoc.
  split_and!; done.
Qed.

(** A document that is a mapping but lacks the rooms or the items, or
    holds something else than a mapping for them, gets one line after the
    heading, in this order of precedence, and no entity is checked. *)
Theorem main_stops_at_structure d out :
  (dict_get "Rooms" d = None →
   main py_str pprint (VDict d) out
   = (out ++ header pprint (VDict d) ++ ["No rooms found."], Ok ()))
  ∧ (∀ rooms, dict_get "Rooms" d = Some rooms →
       dict_get "Items" d = None →
       main py_str pprint (VDict d) out
       = (out ++ header pprint (VDict d) ++ ["No items found."], Ok ()))
  ∧ (∀ rooms items, dict_get "Rooms" d = Some rooms →
       dict_get "Items" d = Some items →
       (∀ r, rooms ≠ VDict r) →
       main py_str pprint (VDict d) out
       = (out ++ header pprint (VDict d)
            ++ ["Rooms in data were not proper data."], Ok ()))
  ∧ (∀ rooms items, dict_get "Rooms" d = Some (VDict rooms) →
       dict_get "Items" d = Some items →
       (∀ i, items ≠ VDict i) →
       main py_str pprint (VDict d) out
       = (out ++ header pprint (VDict d)
            ++ ["items in data were not proper data."], Ok ())).
Proof.
  split_and!.
  - intros Hrooms. rewrite main_header. unfold py_in, dict_mem.
    rewrite Hrooms. unfold print. by rewrite <- app_assoc.
  - intros rooms Hrooms Hitems. rewrite main_header. unfold py_in, dict_mem.
    rewrite Hrooms, Hitems. unfold print. by rewrite <- app_assoc.
  - intros rooms items Hrooms Hitems Hnot. rewrite main_header.
    unfold py_in, dict_mem, py_getitem, dict_item. rewrite Hrooms, Hitems.
    destruct rooms; try (unfold print; by rewrite <- app_assoc).
    by destruct (Hnot d0).
  - intros rooms items Hrooms Hitems Hnot. rewrite main_header.
    unfold py_in, dict_mem, py_getitem, dict_item. rewrite Hrooms, Hitems.
    destruct items; try (unfold print; by rewrite <- app_assoc).
    by destruct (Hnot d0).
Qed.

(** A document that is no container, as the one loaded from an empty
    file, makes [main] raise [TypeError] once the heading is printed. *)
Theorem main_raises_on_scalar_document data out :
  scalar data →
  main py_str pprint data out
  = (out ++ header pprint data, Raise TypeError).
Proof.
  intros [->|[[b ->]|[n ->]]]; by rewrite main_header.
Qed.
End main_facts.

Section check_stops.
Import saveload.

Lemma io_for_app {A : Type} (body : A → io unit) l1 l2 out :
  io_for body (l1 ++ l2) out
  = io_bind (io_for body l1) (fun _ => io_for body l2) out.
Proof.
  revert out. induction l1 as [|a l1 IH]; intros out; simpl.
  - unfold io_bind. done.
  - unfold io_bind. destruct (body a out) as [o [[]|e]]; [|done].
    rewrite IH. done.
Qed.

Lemma dict_get_app_l {V : Type} (k : string) (d1 d2 : list (string * V)) :
  k ∈ keys d1 → dict_get k (d1 ++ d2) = dict_get k d1.
Proof.
  unfold keys. induction d1 as [|[k' v] d1 IH]; csimpl.
  - intros Hx. by apply elem_of_nil in Hx.
  - case_decide; [done|]. intros [?|?]%elem_of_cons; [done|]. by apply IH.
Qed.

(** A room that is null or a number stops the check of the rooms: the
    rooms before it have their four lines, and [TypeError] is raised. *)
Theorem scalar_room_stops_the_check before name room after out :
  scalar room →
  name ∉ keys before →
  (∀ n r, (n, r) ∈ before → checkable r) →
  ∃ lines,
    check_rooms (before ++ (name, room) :: after) out
    = (out ++ lines, Raise TypeError)
    ∧ length lines = (length before * 4)%nat.
Proof.
  intros Hscalar Hfresh Hwf.
  set (rooms := before ++ (name, room) :: after).
  set (inner n :=
         mjoin ((fun direction => printed rooms n direction) <$> DIRECTIONS)).
  assert (∀ n o, n ∈ keys before →
            io_for (fun direction => _path rooms n direction) DIRECTIONS o
            = (o ++ inner n, Ok ())
            ∧ length (inner n) = 4%nat) as Hinner.
  { intros n o Hn.
    destruct (checkable_lookup _ _ Hwf Hn) as (d & Hd & Hhash).
    assert (dict_get n rooms = Some (VDict d)) as Hd'
      by (unfold rooms; by rewrite dict_get_app_l).
    split.
    - apply io_for_lines. intros direction o' Hdir.
      apply (path_printed rooms n direction d o' Hd'). eauto.
    - assert (∀ direction, direction ∈ DIRECTIONS →
                length (printed rooms n direction) = 1%nat) as Hone.
      { intros direction Hdir.
        apply (path_printed rooms n direction d [] Hd'). eauto. }
      unfold inner. simpl. rewrite !length_app.
      rewrite !Hone; [done|unfold DIRECTIONS..];
        repeat (first [by left | right]). }
  exists (mjoin (inner <$> keys before)). split.
  - unfold check_rooms. fold rooms.
    assert (keys rooms = keys before ++ name :: keys after) as ->.
    { unfold rooms, keys. by rewrite fmap_app. }
    rewrite io_for_app. unfold io_bind at 1.
    rewrite (io_for_lines _ inner) by (intros n o Hn; by apply Hinner).
    simpl. unfold io_bind.
    assert (dict_get name rooms = Some room) as Hroom.
    { unfold rooms. rewrite dict_get_app_fresh by done. simpl.
      by rewrite decide_True. }
    unfold _path at 1, dict_item. rewrite Hroom.
    by destruct Hscalar as [->|[[b ->]|[n ->]]].
  - assert (∀ names, (∀ n, n ∈ names → n ∈ keys before) →
              length (mjoin (inner <$> names)) = (length names * 4)%nat) as Hlen.
    { induction names as [|n names IH]; intros Hsub; csimpl; [done|].
      rewrite length_app, IH by (intros; apply Hsub; by right).
      by rewrite (proj2 (Hinner n [] (Hsub n (list_elem_of_here _ _)))). }
    unfold keys in *. rewrite Hlen by done. by rewrite length_fmap.
Qed.
End check_stops.

(** ** Loading a game *)

Lemma map_each_raise {A B : Type} (f : A → result B) (l : list A) (e : exn) :
  (∀ a e', a ∈ l → f a = Raise e' → e' = e) →
  (∃ a, a ∈ l ∧ f a = Raise e) →
  map_each f l = Raise e.
Proof.
  intros Honly (a & Hin & Ha). induction l as [|b l IH].
  - by apply elem_of_nil in Hin.
  - simpl. destruct (f b) as [b'|e'] eqn:Hb; simpl.
    + apply elem_of_cons in Hin as [->|Hin]; [congruence|].
      rewrite IH; [done| |done]. intros ? ? ?. apply Honly. by right.
    + f_equal. eapply Honly; [left|done].
Qed.

Lemma Room_init_cases v :
  (∃ d r, v = VDict d ∧ Room.__init__ v = Ok r)
  ∨ ((∀ d, v ≠ VDict d) ∧ Room.__init__ v = Raise AttributeError).
Proof. destruct v; try (right; split; [done|reflexivity]). left. by eexists _, _. Qed.

Lemma Player_init_dict p : ∃ player, Player.__init__ (VDict p) = Ok player.
Proof. by eexists. Qed.

(** Loading a document without a player raises [KeyError]; without
    rooms, or with a room that is not a mapping, [AttributeError]. *)
Theorem game_load_failures d :
  (dict_get "player" d = None → Game.__init__ (VDict d) = Raise KeyError)
  ∧ (∀ p, dict_get "player" d = Some (VDict p) →
       dict_get "rooms" d = None →
       Game.__init__ (VDict d) = Raise AttributeError)
  ∧ (∀ p rooms name room,
       dict_get "player" d = Some (VDict p) →
       dict_get "rooms" d = Some (VDict rooms) →
       (name, room) ∈ rooms → (∀ r, room ≠ VDict r) →
       Game.__init__ (VDict d) = Raise AttributeError).
Proof.
  split_and!.
  - intros Hplayer. unfold Game.__init__, py_getitem, dict_item.
    by rewrite Hplayer.
  - intros p Hplayer Hrooms. unfold Game.__init__, py_getitem, dict_item.
    rewrite Hplayer. cbn [bind].
    destruct (Player_init_dict p) as [player ->]. cbn [bind].
    unfold py_get. by rewrite Hrooms.
  - intros p rooms name room Hplayer Hrooms Hin Hnot.
    unfold Game.__init__, py_getitem, dict_item. rewrite Hplayer.
    cbn [bind]. destruct (Player_init_dict p) as [player ->]. cbn [bind].
    unfold py_get. rewrite Hrooms. cbn [bind].
    change (default VNone (Some (VDict rooms))) with (VDict rooms).
    unfold Game.build at 1. cbn [py_items bind].
    rewrite (map_each_raise _ _ AttributeError); [done| |].
    + intros [n v] e' _. destruct (Room_init_cases v) as [(? & ? & _ & ->)|[_ ->]];
        simpl; congruence.
    + exists (name, room). split; [done|].
      destruct (Room_init_cases room) as [(r & ? & -> & _)|[_ ->]]; [|done].
      by destruct (Hnot r).
Qed.

(** Loading the snapshot of a loaded game gives the game back: the same
    player, rooms, items, characters and minimap; only the document it
    keeps is the snapshot. *)
Theorem reloaded_game_is_the_game D g :
  Game.__init__ D = Ok g →
  Game.__init__ (Game.save g)
  = Ok {| Game._data := Game.save g; Game.player := Game.player g;
          Game.rooms := Game.rooms g; Game.items := Game.items g;
          Game.npc := Game.npc g; Game.room_map := Game.room_map g |}.
Proof.
  intros Hload. unfold Game.__init__ in Hload. inv_bind Hload.
  injection Hload as <-.
  match goal with H : Game.build Room.__init__ _ = _ |- _ =>
    apply build_NoDup in H end.
  match goal with H : Game.build Item.__init__ _ = _ |- _ =>
    apply build_NoDup in H end.
  match goal with H : Game.build Nonplayer.__init__ _ = _ |- _ =>
    apply build_NoDup in H end.
  unfold Game.__init__.
  rewrite saved_player, saved_rooms, saved_items, saved_npc.
  cbn [bind Game.player Game.rooms Game.items Game.npc Game.room_map].
  rewrite Player_init_save; cbn [bind].
  rewrite (build_saved _ _ _ Room_init_save) by done; cbn [bind].
  rewrite (build_saved _ _ _ Item_init_save) by done; cbn [bind].
  rewrite (build_saved _ _ _ Nonplayer_init_save) by done; cbn [bind].
  match goal with H : Map.__init__ _ _ = Ok _ |- _ => rewrite H end.
  reflexivity.
Qed.

(** ** The further properties at sample worlds *)

Lemma sample_room_plain up down left right :
  (up = VNone ∨ ∃ s, up = VStr s) →
  (down = VNone ∨ ∃ s, down = VStr s) →
  (left = VNone ∨ ∃ s, left = VStr s) →
  (right = VNone ∨ ∃ s, right = VStr s) →
  plain_exits (Samples.room up down left right).
Proof.
  intros Hup Hdown Hleft Hright. eexists. split; [reflexivity|].
  intros direction Hdir. unfold directions in Hdir.
  repeat (apply elem_of_cons in Hdir as [->|Hdir]; [by eexists|]).
  by apply elem_of_nil in Hdir.
Qed.

Lemma corridor_plain name room :
  (name, room) ∈ Samples.corridor → plain_exits room.
Proof.
  intros Hin. unfold Samples.corridor in Hin.
  repeat (apply elem_of_cons in Hin as [[= -> ->]|Hin];
          [apply sample_room_plain; eauto|]).
  by apply elem_of_nil in Hin.
Qed.

Lemma corridor_closed : closed Samples.corridor.
Proof.
  intros name dest (room & direction & Hin & Hdir & Hexit & _).
  unfold Samples.corridor in Hin. unfold directions in Hdir.
  repeat (apply elem_of_cons in Hin as [[= -> ->]|Hin];
          [repeat (apply elem_of_cons in Hdir as [->|Hdir];
                   [try discriminate Hexit|]);
           [..|by apply elem_of_nil in Hdir]|]);
    try (by apply elem_of_nil in Hin);
    injection Hexit as <-; unfold keys; simpl;
    repeat (first [by left | right]).
Qed.

Lemma corridor_linked : linked Samples.corridor "A" "B".
Proof.
  exists (Samples.room VNone VNone VNone (VStr "B")), "right".
  split_and!; [left|unfold directions; do 3 right; left|reflexivity|done].
Qed.

Lemma dangling_exit_raises_witness :
  Map.layout Samples.ghost = Raise KeyError.
Proof.
  apply (dangling_exit_raises Samples.ghost "A" "Ghost").
  - intros name room Hin. unfold Samples.ghost in Hin.
    apply elem_of_cons in Hin as [Heq|Hin].
    + injection Heq as -> ->. apply sample_room_plain; eauto.
    + by apply elem_of_nil in Hin.
  - exists (Samples.room VNone VNone VNone (VStr "Ghost")), "right".
    split_and!; [left|unfold directions; do 3 right; left|reflexivity|done].
  - intros Hin. unfold Samples.ghost, keys in Hin. simpl in Hin.
    apply elem_of_cons in Hin as [Heq|Hin]; [discriminate Heq|].
    by apply elem_of_nil in Hin.
Defined.

Lemma closed_rooms_are_laid_out_witness :
  ∃ m, Map.layout Samples.corridor = Ok m.
Proof.
  apply (closed_rooms_are_laid_out Samples.corridor "A" "B").
  - apply corridor_plain.
  - apply corridor_closed.
  - apply corridor_linked.
Defined.

Lemma origin_iff_linked_witness :
  ∃ raw, raw_origins Samples.corridor = Ok raw ∧ "B" ∈ keys raw.
Proof.
  eexists. split; [reflexivity|].
  apply (origin_iff_linked Samples.corridor _ "B" eq_refl).
  right. exists "A". apply corridor_linked.
Defined.

Lemma normalization_is_one_shift_witness :
  ∃ m raw dx dy,
    Map.layout Samples.stairs = Ok m
    ∧ raw_origins Samples.stairs = Ok raw
    ∧ 0 ≤ dx ∧ 0 ≤ dy
    ∧ keys (Map.origins m) = keys raw.
Proof.
  assert (∃ m, Map.layout Samples.stairs = Ok m) as [m Hm].
  { vm_compute. eexists. reflexivity. }
  destruct (normalization_is_one_shift Samples.stairs m Hm)
    as (raw & dx & dy & Hraw & Hdx & Hdy & Hkeys & _).
  exists m, raw, dx, dy.
  exact (conj Hm (conj Hraw (conj Hdx (conj Hdy Hkeys)))).
Defined.

Lemma node_id_decodes_witness :
  ∃ m right top,
    Map.layout Samples.corridor = Ok m
    ∧ py_max Map.x (values (Map.origins m)) = Ok right
    ∧ py_max Map.y (values (Map.origins m)) = Ok top.
Proof.
  assert (∃ m, Map.layout Samples.corridor = Ok m) as [m Hm].
  { vm_compute. eexists. reflexivity. }
  destruct (node_id_decodes Samples.corridor m Hm)
    as (right & top & Hright & Htop & _).
  exists m, right, top. exact (conj Hm (conj Hright Htop)).
Defined.

Lemma neighbour_ids_come_from_exits_witness :
  ∃ B info_B,
    dict_get B
      [("A", {| Map.node_id := Some 0; Map.edges := [1] |});
       ("B", {| Map.node_id := Some 1; Map.edges := [0] |})]
    = Some info_B
    ∧ Map.node_id info_B = Some 1
    ∧ (linked Samples.corridor "A" B ∨ linked Samples.corridor B "A").
Proof.
  apply (neighbour_ids_come_from_exits Samples.corridor
           {| Map.origins :=
                [("A", {| Map.x := 0; Map.y := 0 |});
                 ("B", {| Map.x := 1; Map.y := 0 |})];
              Map.room_map :=
                [("A", {| Map.node_id := Some 0; Map.edges := [1] |});
                 ("B", {| Map.node_id := Some 1; Map.edges := [0] |})] |}
           "A" {| Map.node_id := Some 0; Map.edges := [1] |} 1).
  - reflexivity.
  - reflexivity.
  - left.
Defined.

Lemma drawn_positions_witness :
  ∃ m d,
    Map.layout Samples.corridor = Ok m
    ∧ Map.show m (Samples.player_at "B") = Ok d
    ∧ keys (Map.pos d) = nx.nodes (Map.graph d).
Proof.
  assert (∃ m, Map.layout Samples.corridor = Ok m
               ∧ ∃ d, Map.show m (Samples.player_at "B") = Ok d)
    as (m & Hm & d & Hd).
  { eexists. split; [vm_compute; reflexivity|].
    vm_compute. eexists. reflexivity. }
  exists m, d.
  exact (conj Hm (conj Hd
           (proj1 (drawn_positions Samples.corridor m
                     (Samples.player_at "B") d Hm Hd)))).
Defined.

Lemma reloaded_game_is_the_game_witness :
  ∃ g g',
    Game.__init__ Samples.world = Ok g
    ∧ Game.__init__ (Game.save g) = Ok g'
    ∧ Game.room_map g' = Game.room_map g.
Proof.
  assert (∃ g, Game.__init__ Samples.world = Ok g) as [g Hg].
  { vm_compute. eexists. reflexivity. }
  exists g. eexists. split; [exact Hg|].
  split; [exact (reloaded_game_is_the_game Samples.world g Hg)|].
  reflexivity.
Defined.

Lemma game_load_failures_witness :
  Game.__init__ (VDict [("rooms", VDict [])]) = Raise KeyError.
Proof.
  apply (game_load_failures [("rooms", VDict [])]). reflexivity.
Defined.

Lemma main_checks_every_entity_witness :
  ∃ room_lines item_lines,
    saveload.main (fun _ => "key") (fun _ => []) (VDict Samples.listing) []
    = (header (fun _ => []) (VDict Samples.listing)
         ++ room_lines ++ item_lines, Ok ())
    ∧ length room_lines = 8%nat
    ∧ length item_lines = 1%nat.
Proof.
  destruct (main_checks_every_entity (fun _ => "key") (fun _ => [])
              Samples.listing
              [("Hall", VDict [("north", VStr "Attic"); ("south", VNone)]);
               ("Attic", VDict [("south", VStr "Hall"); ("east", VStr "Ghost")])]
              [("chest", VDict [("holds", VStr "key")])] [])
    as (room_lines & item_lines & Hmain & _ & Hrooms & Hitems).
  - reflexivity.
  - reflexivity.
  - intros name room Hin.
    repeat (apply elem_of_cons in Hin as [Heq|Hin];
            [injection Heq as -> ->; eexists; split; [reflexivity|];
             intros direction exit _ Hexit; simpl in Hexit;
             repeat (case_decide; [by injection Hexit as <-|]);
             discriminate Hexit|]).
    by apply elem_of_nil in Hin.
  - intros name item Hin.
    apply elem_of_cons in Hin as [Heq|Hin].
    + injection Heq as -> ->. by eexists.
    + by apply elem_of_nil in Hin.
  - exists room_lines, item_lines. split; [exact Hmain|]. by split.
Defined.

Lemma main_stops_at_structure_witness :
  saveload.main (fun _ => "") (fun _ => []) (VDict []) []
  = (header (fun _ => []) (VDict []) ++ ["No rooms found."], Ok ()).
Proof.
  apply (main_stops_at_structure (fun _ => "") (fun _ => []) [] []).
  reflexivity.
Defined.

Lemma main_raises_on_scalar_document_witness :
  saveload.main (fun _ => "") (fun _ => []) VNone []
  = (header (fun _ => []) VNone, Raise TypeError).
Proof.
  apply (main_raises_on_scalar_document (fun _ => "") (fun _ => []) VNone []).
  by left.
Defined.

Lemma scalar_room_stops_the_check_witness :
  ∃ lines,
    saveload.check_rooms [("Hall", VDict []); ("Attic", VNone)] []
    = (lines, Raise TypeError)
    ∧ length lines = 4%nat.
Proof.
  apply (scalar_room_stops_the_check [("Hall", VDict [])] "Attic" VNone [] []).
  - by left.
  - intros Hin. unfold keys in Hin. simpl in Hin.
    apply elem_of_cons in Hin as [Heq|Hin]; [discriminate Heq|].
    by apply elem_of_nil in Hin.
  - intros n r Hin. apply elem_of_cons in Hin as [Heq|Hin].
    + injection Heq as -> ->. eexists. split; [reflexivity|].
      intros direction exit _ Hexit. discriminate Hexit.
    + by apply elem_of_nil in Hin.
Defined.
